(** * ai-document-analyser: the ingestion, field-extraction and Q&A pipeline

    A shallow embedding of [geminiService.js] and of the Express request
    handlers of the server, with the properties of the pipeline proved on it.

    Conventions.
    - A JavaScript string is the list of its UTF-16 code units ([list N]).
    - A computation that may throw returns a [completion]; code that also
      reads or writes the process state runs in the monad [M], whose state
      survives a throw, as the variables of a JavaScript closure do.
    - The collaborators outside the repository (file system, pdf-parse, the
      chat model, the vision model, the clock) are the fields of a record
      [externals]; every call to one of them is appended to a log.
    - The built-ins the program relies on are written out: [JSON.parse] as a
      lexer and a parser for the JSON grammar, [String.prototype.match] as a
      backtracking matcher, [trim], [toLowerCase], [includes], [startsWith],
      [slice] and [join] as functions on lists. *)

From Stdlib Require Import NArith ZArith String Ascii List Bool Lia DecimalString.
From stdpp Require Import base option list gmap.
Import ListNotations.

#[local] Set Warnings "-register-all".

Local Open Scope N_scope.
Local Open Scope list_scope.

(** ** JavaScript strings *)

Module JsString.

(** [lit "abc"] is the JavaScript string written ["abc"] in the source
    (the literals of the program are ASCII). *)
Definition lit (s : string) : list N :=
  List.map N_of_ascii (list_ascii_of_string s).

(** WhiteSpace and LineTerminator code points of ECMAScript: the set
    removed by [String.prototype.trim] and matched by [\s]. *)
Definition isWhiteSpace (c : N) : bool :=
  (9 <=? c) && (c <=? 13)
  || (c =? 32) || (c =? 160) || (c =? 5760)
  || (8192 <=? c) && (c <=? 8202)
  || (c =? 8232) || (c =? 8233) || (c =? 8239) || (c =? 8287)
  || (c =? 12288) || (c =? 65279).

Fixpoint trimStart (s : list N) : list N :=
  match s with
  | c :: s' => if isWhiteSpace c then trimStart s' else s
  | [] => []
  end.

Definition trimEnd (s : list N) : list N := rev (trimStart (rev s)).

Definition trim (s : list N) : list N := trimEnd (trimStart s).

(** Lower-casing of one code unit: Basic Latin and Latin-1 letters; the
    other code units are kept.  The strings lower-cased by the program are
    media types, which are ASCII tokens. *)
Definition lowerChar (c : N) : N :=
  if (65 <=? c) && (c <=? 90) then c + 32
  else if (192 <=? c) && (c <=? 222) && negb (c =? 215) then c + 32
  else c.

Definition toLowerCase (s : list N) : list N := List.map lowerChar s.

Fixpoint startsWith (p s : list N) : bool :=
  match p, s with
  | [], _ => true
  | a :: p', b :: s' => (a =? b) && startsWith p' s'
  | _ :: _, [] => false
  end.

Fixpoint includes (p s : list N) : bool :=
  startsWith p s ||
  match s with
  | [] => false
  | _ :: s' => includes p s'
  end.

(** [litq] is [lit] with every apostrophe of the literal standing for a
    double quote: [litq "{'a':1}"] is the text of a JSON object. *)
Definition litq (s : string) : list N :=
  List.map (fun c => if c =? 39 then 34 else c) (lit s).

(** Truthiness of a string: the empty string is the only falsy one. *)
Definition truthy (s : list N) : bool :=
  match s with [] => false | _ => true end.

(** [a || b] on strings. *)
Definition orElse (a b : list N) : list N := if truthy a then a else b.

Definition digitChar (d : nat) : N := 48 + N.of_nat d.

Fixpoint digitsFuel (fuel n : nat) (acc : list N) : list N :=
  match fuel with
  | O => acc
  | S fuel' =>
      let acc' := digitChar (n mod 10) :: acc in
      if (n / 10 =? 0)%nat then acc' else digitsFuel fuel' (n / 10) acc'
  end.

(** [String(n)] for a natural number: its decimal digits. *)
Definition ofNat (n : nat) : list N := digitsFuel (S n) n [].

(** [Array.prototype.join] on strings. *)
Fixpoint join (sep : list N) (parts : list (list N)) : list N :=
  match parts with
  | [] => []
  | [p] => p
  | p :: ps => p ++ sep ++ join sep ps
  end.

End JsString.
Import JsString.

(** ** Abrupt completion *)

Inductive exn : Type :=
| SyntaxError
| TypeError
| Error (msg : list N).

Inductive completion (A : Type) : Type :=
| Normal (a : A)
| Throw (e : exn).
Arguments Normal {A} a.
Arguments Throw {A} e.

(** [try { c } catch { h }] for computations without state. *)
Definition tryCatch {A} (c : completion A) (h : exn -> completion A) : completion A :=
  match c with
  | Normal a => Normal a
  | Throw e => h e
  end.

(** ** JSON values and [JSON.parse] *)

Module Json.

(** A parsed JSON value.  A number is kept as its lexeme (the program
    only tests numbers for being zero, see [roundsToZero]); an object keeps
    its members in source order. *)
Inductive value : Type :=
| VNull
| VBool (b : bool)
| VNum (lexeme : list N)
| VStr (s : list N)
| VArr (items : list value)
| VObj (members : list (list N * value)).

Definition isNull (v : value) : bool :=
  match v with VNull => true | _ => false end.

Definition isObject (v : value) : bool :=
  match v with VObj _ => true | _ => false end.

Inductive token : Type :=
| TLBrace | TRBrace | TLBrack | TRBrack | TColon | TComma
| TString (s : list N)
| TNumber (lexeme : list N)
| TTrue | TFalse | TNull.

(** JSON whitespace: tab, line feed, carriage return, space. *)
Definition isJsonWs (c : N) : bool :=
  (c =? 9) || (c =? 10) || (c =? 13) || (c =? 32).

Definition isDigit (c : N) : bool := (48 <=? c) && (c <=? 57).

Definition isNumChar (c : N) : bool :=
  isDigit c || (c =? 45) || (c =? 43) || (c =? 46) || (c =? 101) || (c =? 69).

Definition isLower (c : N) : bool := (97 <=? c) && (c <=? 122).

Definition hexVal (c : N) : option N :=
  if isDigit c then Some (c - 48)
  else if (97 <=? c) && (c <=? 102) then Some (c - 87)
  else if (65 <=? c) && (c <=? 70) then Some (c - 55)
  else None.

(** *** The number grammar: an optional minus sign; an integer part that
    is 0 or starts with a digit from 1 to 9; an optional fraction, a dot and
    at least one digit; an optional exponent, e or E, an optional sign and
    at least one digit. *)

Fixpoint skipDigits (s : list N) : list N :=
  match s with
  | c :: s' => if isDigit c then skipDigits s' else s
  | [] => []
  end.

Definition digits1 (s : list N) : option (list N) :=
  match s with
  | c :: s' => if isDigit c then Some (skipDigits s') else None
  | [] => None
  end.

Definition numInt (s : list N) : option (list N) :=
  match s with
  | c :: s' =>
      if c =? 48 then Some s'
      else if isDigit c then Some (skipDigits s')
      else None
  | [] => None
  end.

Definition numFrac (s : list N) : option (list N) :=
  match s with
  | c :: s' => if c =? 46 then digits1 s' else Some s
  | [] => Some []
  end.

Definition numExp (s : list N) : option (list N) :=
  match s with
  | c :: s' =>
      if (c =? 101) || (c =? 69) then
        match s' with
        | d :: s'' => if (d =? 43) || (d =? 45) then digits1 s'' else digits1 s'
        | [] => None
        end
      else Some s
  | [] => Some []
  end.

Definition validNumber (s : list N) : bool :=
  let s1 := match s with
            | c :: s' => if c =? 45 then s' else s
            | [] => []
            end in
  match numInt s1 with
  | Some s2 =>
      match numFrac s2 with
      | Some s3 =>
          match numExp s3 with
          | Some [] => true
          | _ => false
          end
      | None => false
      end
  | None => false
  end.

Definition keyword (s : list N) : option token :=
  if decide (s = lit "true") then Some TTrue
  else if decide (s = lit "false") then Some TFalse
  else if decide (s = lit "null") then Some TNull
  else None.

(** *** The lexer, a state machine over the code units *)

Inductive lstate : Type :=
| LStart
| LStr (acc : list N)
| LEsc (acc : list N)
| LUni (acc : list N) (hex : list N)
| LNum (acc : list N)
| LWord (acc : list N).

(** A code unit read between two tokens. *)
Definition startStep (c : N) : option (lstate * list token) :=
  if isJsonWs c then Some (LStart, [])
  else if c =? 123 then Some (LStart, [TLBrace])
  else if c =? 125 then Some (LStart, [TRBrace])
  else if c =? 91 then Some (LStart, [TLBrack])
  else if c =? 93 then Some (LStart, [TRBrack])
  else if c =? 58 then Some (LStart, [TColon])
  else if c =? 44 then Some (LStart, [TComma])
  else if c =? 34 then Some (LStr [], [])
  else if (c =? 45) || isDigit c then Some (LNum [c], [])
  else if isLower c then Some (LWord [c], [])
  else None.

Definition escapeChar (c : N) : option N :=
  if c =? 34 then Some 34
  else if c =? 92 then Some 92
  else if c =? 47 then Some 47
  else if c =? 98 then Some 8
  else if c =? 102 then Some 12
  else if c =? 110 then Some 10
  else if c =? 114 then Some 13
  else if c =? 116 then Some 9
  else None.

Definition hexCode (hs : list N) : N :=
  fold_left (fun a h => 16 * a + h) hs 0.

Definition endNumber (acc : list N) : option token :=
  if validNumber (rev acc) then Some (TNumber (rev acc)) else None.

Definition endWord (acc : list N) : option token := keyword (rev acc).

Definition after (t : option token) (c : N) : option (lstate * list token) :=
  match t with
  | Some tk =>
      match startStep c with
      | Some (st, ts) => Some (st, tk :: ts)
      | None => None
      end
  | None => None
  end.

Definition lexStep (st : lstate) (c : N) : option (lstate * list token) :=
  match st with
  | LStart => startStep c
  | LStr acc =>
      if c =? 34 then Some (LStart, [TString (rev acc)])
      else if c =? 92 then Some (LEsc acc, [])
      else if c <? 32 then None
      else Some (LStr (c :: acc), [])
  | LEsc acc =>
      if c =? 117 then Some (LUni acc [], [])
      else match escapeChar c with
           | Some d => Some (LStr (d :: acc), [])
           | None => None
           end
  | LUni acc hs =>
      match hexVal c with
      | Some h =>
          if decide (length hs = 3%nat)
          then Some (LStr (hexCode (hs ++ [h]) :: acc), [])
          else Some (LUni acc (hs ++ [h]), [])
      | None => None
      end
  | LNum acc =>
      if isNumChar c then Some (LNum (c :: acc), [])
      else after (endNumber acc) c
  | LWord acc =>
      if isLower c then Some (LWord (c :: acc), [])
      else after (endWord acc) c
  end.

(** End of input in a given state. *)
Definition lexEnd (st : lstate) : option (list token) :=
  match st with
  | LStart => Some []
  | LNum acc => option_map (fun t => [t]) (endNumber acc)
  | LWord acc => option_map (fun t => [t]) (endWord acc)
  | LStr _ | LEsc _ | LUni _ _ => None
  end.

Fixpoint lex (st : lstate) (s : list N) : option (list token) :=
  match s with
  | [] => lexEnd st
  | c :: s' =>
      match lexStep st c with
      | Some (st', ts) => option_map (app ts) (lex st' s')
      | None => None
      end
  end.

(** *** The parser, by recursive descent over the tokens *)

Section Parser.
Variable parseValue : list token -> option (value * list token).

(** The elements of an array after its first element. *)
Fixpoint parseItems (fuel : nat) (acc : list value) (ts : list token)
  : option (value * list token) :=
  match fuel with
  | O => None
  | S fuel' =>
      match ts with
      | TRBrack :: r => Some (VArr (rev acc), r)
      | TComma :: r =>
          match parseValue r with
          | Some (v, r') => parseItems fuel' (v :: acc) r'
          | None => None
          end
      | _ => None
      end
  end.

Definition parseMember (ts : list token)
  : option ((list N * value) * list token) :=
  match ts with
  | TString k :: TColon :: r =>
      match parseValue r with
      | Some (v, r') => Some ((k, v), r')
      | None => None
      end
  | _ => None
  end.

(** The members of an object after its first member. *)
Fixpoint parseMembers (fuel : nat) (acc : list (list N * value))
  (ts : list token) : option (value * list token) :=
  match fuel with
  | O => None
  | S fuel' =>
      match ts with
      | TRBrace :: r => Some (VObj (rev acc), r)
      | TComma :: r =>
          match parseMember r with
          | Some (m, r') => parseMembers fuel' (m :: acc) r'
          | None => None
          end
      | _ => None
      end
  end.
End Parser.

Fixpoint parseValue (fuel : nat) (ts : list token)
  : option (value * list token) :=
  match fuel with
  | O => None
  | S fuel' =>
      match ts with
      | TNull :: r => Some (VNull, r)
      | TTrue :: r => Some (VBool true, r)
      | TFalse :: r => Some (VBool false, r)
      | TNumber n :: r => Some (VNum n, r)
      | TString s :: r => Some (VStr s, r)
      | TLBrack :: TRBrack :: r => Some (VArr [], r)
      | TLBrack :: r =>
          match parseValue fuel' r with
          | Some (v, r') => parseItems (parseValue fuel') fuel' [v] r'
          | None => None
          end
      | TLBrace :: TRBrace :: r => Some (VObj [], r)
      | TLBrace :: r =>
          match parseMember (parseValue fuel') r with
          | Some (m, r') => parseMembers (parseValue fuel') fuel' [m] r'
          | None => None
          end
      | _ => None
      end
  end.

Definition parseTokens (ts : list token) : option value :=
  match parseValue (S (length ts)) ts with
  | Some (v, []) => Some v
  | _ => None
  end.

(** [JSON.parse(text)]: the value, or a SyntaxError. *)
Definition parse (text : list N) : completion value :=
  match lex LStart text with
  | Some ts =>
      match parseTokens ts with
      | Some v => Normal v
      | None => Throw SyntaxError
      end
  | None => Throw SyntaxError
  end.

End Json.
Import Json.

(** ** Regular expressions

    A backtracking matcher for the constructs the program's one regular
    expression uses, written in continuation-passing style so that greedy and
    lazy quantifiers try their alternatives in the order ECMAScript does. *)

Module Regex.

Inductive regex : Type :=
| REmpty
| RChar (c : N)                (* a literal, compared as the [i] flag says *)
| RSeq (r1 r2 : regex)
| ROpt (r : regex)             (* [r?], greedy *)
| RStar (p : N -> bool)        (* [[p]*], greedy, over a character class *)
| RLazy (p : N -> bool)        (* [[p]*?], lazy, over a character class *)
| RGroup (r : regex).          (* [(r)], capture group 1 *)

(** Canonicalisation under the [i] flag without the [u] flag: the letters
    a to z go to upper case.  A code unit above 127 never canonicalises to
    one below 128, so against the ASCII literals of the program it is
    compared as itself. *)
Definition canon (c : N) : N :=
  if (97 <=? c) && (c <=? 122) then c - 32 else c.

Fixpoint starGreedy {R} (p : N -> bool) (s : list N)
  (k : list N -> option R) : option R :=
  match s with
  | c :: s' =>
      if p c then
        match starGreedy p s' k with
        | Some x => Some x
        | None => k s
        end
      else k s
  | [] => k []
  end.

Fixpoint starLazy {R} (p : N -> bool) (s : list N)
  (k : list N -> option R) : option R :=
  match k s with
  | Some x => Some x
  | None =>
      match s with
      | c :: s' => if p c then starLazy p s' k else None
      | [] => None
      end
  end.

(** [run r s cap k]: match [r] at the head of [s], then continue with [k]
    on the rest of the input and the capture; [None] asks the caller to
    backtrack. *)
Fixpoint run {R} (r : regex) (s : list N) (cap : option (list N))
  (k : list N -> option (list N) -> option R) : option R :=
  match r with
  | REmpty => k s cap
  | RChar c =>
      match s with
      | d :: s' => if canon c =? canon d then k s' cap else None
      | [] => None
      end
  | RSeq r1 r2 => run r1 s cap (fun s1 cap1 => run r2 s1 cap1 k)
  | ROpt r1 =>
      match run r1 s cap k with
      | Some x => Some x
      | None => k s cap
      end
  | RStar p => starGreedy p s (fun s1 => k s1 cap)
  | RLazy p => starLazy p s (fun s1 => k s1 cap)
  | RGroup r1 =>
      run r1 s cap
        (fun s1 _ => k s1 (Some (take (length s - length s1) s)))
  end.

Definition matchHere (r : regex) (s : list N) : option (option (list N)) :=
  run r s None (fun _ cap => Some cap).

(** [s.match(r)] for a regular expression without the [g] flag: the
    leftmost match; the result is the content of capture group 1
    ([None] inside when the group did not take part). *)
Fixpoint exec (r : regex) (s : list N) : option (option (list N)) :=
  match matchHere r s with
  | Some cap => Some cap
  | None =>
      match s with
      | [] => None
      | _ :: s' => exec r s'
      end
  end.

Fixpoint rlit (s : list N) : regex :=
  match s with
  | [] => REmpty
  | c :: s' => RSeq (RChar c) (rlit s')
  end.

End Regex.
Import Regex.

(** ** geminiService.js: the lenient parser *)

Definition anyChar (_ : N) : bool := true.

(** The regular expression of [safeParseJson]: three backticks, an optional
    [json] tag, whitespace, the lazily captured body, whitespace, three
    backticks; flag [i]. *)
Definition fenceRe : regex :=
  RSeq (rlit (lit "```"))
    (RSeq (ROpt (rlit (lit "json")))
       (RSeq (RStar isWhiteSpace)
          (RSeq (RGroup (RLazy anyChar))
             (RSeq (RStar isWhiteSpace) (rlit (lit "```")))))).

(** [JSON.parse(fence[1])]; an absent group is the argument [undefined],
    which is converted to the string "undefined". *)
Definition parseGroup (g : option (list N)) : completion value :=
  match g with
  | Some body => Json.parse body
  | None => Json.parse (lit "undefined")
  end.

Definition rawObject (text : list N) : value :=
  VObj [(lit "raw", VStr (trim text))].

Definition safeParseJson (text : list N) : completion value :=
  tryCatch (Json.parse text) (fun _ =>
    match exec fenceRe text with
    | Some g => tryCatch (parseGroup g) (fun _ => Normal (rawObject text))
    | None => Normal (rawObject text)
    end).

(** ** The world outside the repository *)

(** The reply of the chat model, an [AIMessage]: its [content] is a string,
    an array of parts or something else; a part is a string or an object
    with an optional [text]. *)
Inductive part : Type :=
| PartStr (s : list N)
| PartObj (text : option (list N)).

Inductive content : Type :=
| CString (s : list N)
| CParts (ps : list part)
| COther (shown : list N).      (* any other value, with its [String(...)] *)

Record aiMessage : Type := AIMessage {
  msgContent : option content;   (* [None]: null or undefined *)
  msgText : option content
}.

(** The result of [generateContent] of the vision model. *)
Record genResponse : Type := GenResponse {
  respText : option (completion (list N));  (* [response.text], when present, called *)
  respCandidate : option (list N)           (* [candidates[0].content.parts[0].text] *)
}.

Record genResult : Type := GenResult {
  genResp : option genResponse
}.

Inductive event : Type :=
| EvReadFile (path : list N)
| EvReadFileUtf8 (path : list N)
| EvLoadPdfParse
| EvPdfParse (buffer : list N)
| EvChatInvoke (prompt : list N)
| EvGenerateContent (instruction mimeType buffer : list N)
| EvDateNow
| EvConsoleError (label : list N).

(** How the collaborators answer during one request. *)
Record externals : Type := Externals {
  GEMINI_API_KEY : option (list N);
  readFile : list N -> completion (list N);
  readFileUtf8 : list N -> completion (list N);
  loadPdfParse : completion unit;
  pdfParse : list N -> completion (option (list N));   (* [data?.text] *)
  chatInvoke : list N -> completion (option aiMessage);
  generateContent : list N -> list N -> list N -> completion genResult;
  dateNow : Z
}.

(** ** Process state and the monad of the handlers *)

Record turn : Type := Turn { q : list N; a : list N; ts : Z }.

Record session : Type := Session {
  history : option (list turn)     (* [None]: [req.session.history] undefined *)
}.

Record state : Type := State {
  lastDocumentText : list N;
  lastExtracted : option value;    (* [None]: null *)
  sessions : gmap N session;
  log : list event
}.

Definition initialState : state :=
  {| lastDocumentText := []; lastExtracted := None; sessions := ∅; log := [] |}.

Definition M (A : Type) : Type := state -> completion A * state.

Definition ret {A} (x : A) : M A := fun st => (Normal x, st).

Definition bind {A B} (m : M A) (f : A -> M B) : M B :=
  fun st =>
    match m st with
    | (Normal x, st') => f x st'
    | (Throw e, st') => (Throw e, st')
    end.

Definition throw {A} (e : exn) : M A := fun st => (Throw e, st).

(** [try { m } catch (e) { h e }]: the writes of [m] before the throw stay. *)
Definition try_ {A} (m : M A) (h : exn -> M A) : M A :=
  fun st =>
    match m st with
    | (Normal x, st') => (Normal x, st')
    | (Throw e, st') => h e st'
    end.

Definition lift {A} (c : completion A) : M A := fun st => (c, st).

(** A call to a collaborator: logged, then its outcome. *)
Definition call {A} (ev : event) (c : completion A) : M A :=
  fun st =>
    (c, {| lastDocumentText := lastDocumentText st;
           lastExtracted := lastExtracted st;
           sessions := sessions st;
           log := log st ++ [ev] |}).

Definition getState : M state := fun st => (Normal st, st).

Definition setLastDocumentText (t : list N) : M unit :=
  fun st =>
    (Normal tt, {| lastDocumentText := t;
                   lastExtracted := lastExtracted st;
                   sessions := sessions st;
                   log := log st |}).

Definition setLastExtracted (v : value) : M unit :=
  fun st =>
    (Normal tt, {| lastDocumentText := lastDocumentText st;
                   lastExtracted := Some v;
                   sessions := sessions st;
                   log := log st |}).

(** [req.session] of the session [sid]: a fresh session has no history. *)
Definition sessionOf (sid : N) (st : state) : session :=
  default (Session None) (sessions st !! sid).

(** [req.session.history = h]. *)
Definition setHistory (sid : N) (h : list turn) : M unit :=
  fun st =>
    (Normal tt, {| lastDocumentText := lastDocumentText st;
                   lastExtracted := lastExtracted st;
                   sessions := <[sid := Session (Some h)]> (sessions st);
                   log := log st |}).

(** [req.session.history || []]. *)
Definition historyOf (sid : N) (st : state) : list turn :=
  default [] (history (sessionOf sid st)).

Notation "'let!' x ':=' m 'in' k" := (bind m (fun x => k))
  (at level 10, x name, m at level 100, k at level 200).
Notation "'run!' m 'in' k" := (bind m (fun _ => k))
  (at level 10, m at level 100, k at level 200).

(** ** geminiService.js *)

Definition missingKey : exn :=
  Error (lit "GEMINI_API_KEY is not set in environment").

Definition keySet (ext : externals) : bool :=
  match GEMINI_API_KEY ext with
  | Some k => truthy k
  | None => false
  end.

(** [getModel()] and [getGenAi()]: the client handle is memoised in the
    source; only the check of the key can be observed. *)
Definition getModel (ext : externals) : M unit :=
  if keySet ext then ret tt else throw missingKey.

Definition getGenAi (ext : externals) : M unit :=
  if keySet ext then ret tt else throw missingKey.

Definition partText (p : part) : list N :=
  match p with
  | PartStr s => s
  | PartObj (Some t) => t
  | PartObj None => []
  end.

Definition pickTextFromAiMessage (ai : option aiMessage) : list N :=
  match ai with
  | None => []
  | Some m =>
      let c := match msgContent m with
               | Some c => c
               | None => match msgText m with
                         | Some c => c
                         | None => CString []
                         end
               end in
      match c with
      | CParts ps => join (lit "
") (List.map partText ps)
      | CString s => s
      | COther shown => shown
      end
  end.

Definition extractPrompt (documentText : list N) : list N :=
  litq "Extract the following fields from this loan document. Respond ONLY with a valid JSON object with these exact keys: 'Customer Name', 'Loan Amount', 'PAN/Aadhaar', 'Loan Tenure', 'Collateral Type'. If a field is missing, set it to an empty string.

Document:
" ++ documentText.

Definition extractFields (ext : externals) (documentText : list N) : M value :=
  run! getModel ext in
  let! ai := call (EvChatInvoke (extractPrompt documentText))
             (chatInvoke ext (extractPrompt documentText)) in
  lift (safeParseJson (pickTextFromAiMessage ai)).

(** [arr.slice(start)] for a relative start, negative from the end. *)
Definition slice {A} (start : Z) (l : list A) : list A :=
  let len := Z.of_nat (length l) in
  let k := if (start <? 0)%Z then Z.max (len + start) 0 else Z.min start len in
  drop (Z.to_nat k) l.

Fixpoint mapIdx {A B} (f : A -> nat -> B) (i : nat) (l : list A) : list B :=
  match l with
  | [] => []
  | x :: l' => f x i :: mapIdx f (S i) l'
  end.

Definition turnBlock (it : turn) (idx : nat) : list N :=
  lit "Turn " ++ ofNat (idx + 1) ++ lit ":
Q: " ++ orElse (q it) [] ++ lit "
A: " ++ orElse (a it) [].

Definition formatHistoryForPrompt (historyItems : list turn) : list N :=
  match historyItems with
  | [] => []
  | _ =>
      let lines := join (lit "

") (mapIdx turnBlock 0 (slice (-12) historyItems)) in
      lit "Previous Q&A (most recent last):
" ++ lines ++ lit "

"
  end.

Definition answerPrompt (documentText question : list N) (hist : list turn) : list N :=
  lit "You are a helpful loan document assistant. Use the document and the prior Q&A context to answer.

Document:
" ++ documentText ++ lit "

" ++ formatHistoryForPrompt hist ++ lit "Question:
" ++ question.

Definition answerQuestion (ext : externals) (documentText question : list N)
  (hist : list turn) : M (list N) :=
  run! getModel ext in
  let! ai := call (EvChatInvoke (answerPrompt documentText question hist))
             (chatInvoke ext (answerPrompt documentText question hist)) in
  ret (trim (pickTextFromAiMessage ai)).

(** [result.response?.text?.() || result.response?.candidates?.[0]
    ?.content?.parts?.[0]?.text || ""], then [String(text).trim()]. *)
Definition resultText (r : genResult) : completion (list N) :=
  let cand := match genResp r with
              | Some resp => default [] (respCandidate resp)
              | None => []
              end in
  match genResp r with
  | Some (GenResponse (Some (Throw e)) _) => Throw e
  | Some (GenResponse (Some (Normal t)) _) => Normal (trim (orElse t (orElse cand [])))
  | _ => Normal (trim (orElse cand []))
  end.

Definition pdfInstruction : list N :=
  lit "Extract all legible text from every page of this PDF as plain text. Keep reading order if possible.".

Definition imageInstruction : list N :=
  lit "Extract all visible text content from this image as plain text.".

(** The vision-model call shared by the two OCR paths. *)
Definition visionText (ext : externals) (instruction mimeType buffer : list N)
  : M (list N) :=
  let! result := call (EvGenerateContent instruction mimeType buffer)
                 (generateContent ext instruction mimeType buffer) in
  lift (resultText result).

(** The native parse of the PDF branch: [Some parsedText] when it is
    returned at once, [None] when control goes on to the OCR fallback. *)
Definition nativePdfText (ext : externals) (buffer : list N) : M (option (list N)) :=
  try_
    (run! call EvLoadPdfParse (loadPdfParse ext) in
     let! data := call (EvPdfParse buffer) (pdfParse ext buffer) in
     let parsedText := trim (orElse (default [] data) []) in
     if truthy parsedText && (50 <? length parsedText)%nat
     then ret (Some parsedText)
     else ret None)
    (fun _ => ret None).

(** The three branches of [extractTextFromFile], in source order: the PDF
    branch (the native parse, then the OCR fallback), the image branch and
    the final branch that reads the file as UTF-8 text. *)
Definition pdfBranch (ext : externals) (filePath : list N) : M (list N) :=
  let! buffer := call (EvReadFile filePath) (readFile ext filePath) in
  let! native := nativePdfText ext buffer in
  match native with
  | Some parsedText => ret parsedText
  | None =>
      run! getGenAi ext in
      visionText ext pdfInstruction (lit "application/pdf") buffer
  end.

Definition imageBranch (ext : externals) (filePath mimeType : list N) : M (list N) :=
  run! getGenAi ext in
  let! bytes := call (EvReadFile filePath) (readFile ext filePath) in
  visionText ext imageInstruction mimeType bytes.

Definition textBranch (ext : externals) (filePath : list N) : M (list N) :=
  try_ (call (EvReadFileUtf8 filePath) (readFileUtf8 ext filePath))
       (fun _ => ret []).

(** [mimeType] is [None] when it is null or undefined; [mimeType || ""] is
    then the empty string. *)
Definition extractTextFromFile (ext : externals) (filePath : list N)
  (mimeType : option (list N)) : M (list N) :=
  let lower := toLowerCase (default [] mimeType) in
  if includes (lit "pdf") lower then pdfBranch ext filePath
  else if startsWith (lit "image/") lower then
    imageBranch ext filePath (default [] mimeType)
  else textBranch ext filePath.

(** ** The server: upload filter, responses and request handlers *)

Record uploadedFile : Type := UploadedFile {
  path : list N;
  mimetype : list N
}.

(** The [fileFilter] of multer: which declared media types reach the
    upload handler. *)
Definition fileFilter (file : uploadedFile) : bool :=
  bool_decide (mimetype file = lit "text/plain")
  || bool_decide (mimetype file = lit "application/pdf")
  || startsWith (lit "image/") (mimetype file).

Record response : Type := Response {
  status : nat;
  body : value
}.

(** [res.json(v)] and [res.status(code).json({ error: msg })]. *)
Definition json (v : value) : response := Response 200 v.

Definition errorJson (code : nat) (msg : list N) : response :=
  Response code (VObj [(lit "error", VStr msg)]).

Record uploadRequest : Type := UploadRequest {
  file : option uploadedFile;      (* [req.file] *)
  uploadSession : N
}.

Definition postUpload (ext : externals) (req : uploadRequest) : M response :=
  try_
    (match file req with
     | None => ret (errorJson 400 (lit "No file uploaded"))
     | Some f =>
         let! text := extractTextFromFile ext (path f) (Some (mimetype f)) in
         if negb (truthy text) || negb (truthy (trim text)) then
           ret (errorJson 400 (lit "Uploaded file is empty or unreadable"))
         else
           run! setLastDocumentText text in
           let! extracted := extractFields ext text in
           run! setLastExtracted extracted in
           run! setHistory (uploadSession req) [] in
           ret (json (VObj [(lit "extracted", extracted)]))
     end)
    (fun _ =>
       run! call (EvConsoleError (lit "/api/upload error")) (Normal tt) in
       ret (errorJson 500 (lit "Failed to process upload"))).

(** *** Values of the request body *)

(** The decimal value of a number lexeme, as a mantissa and a power of
    ten: the digits of the integer and fraction parts read as one integer,
    and the exponent less the number of fraction digits.  The sign is left
    out: it does not change whether the number is zero. *)
Fixpoint spanDigits (s : list N) : list N * list N :=
  match s with
  | c :: s' =>
      if isDigit c then let (ds, r) := spanDigits s' in (c :: ds, r)
      else ([], s)
  | [] => ([], [])
  end.

Definition digitsToN (ds : list N) : N :=
  fold_left (fun acc c => 10 * acc + (c - 48)) ds 0.

Definition exponentOf (s : list N) : Z :=
  match s with
  | c :: r =>
      if (c =? 101) || (c =? 69) then
        match r with
        | d :: r' =>
            if d =? 45 then (- Z.of_N (digitsToN r'))%Z
            else if d =? 43 then Z.of_N (digitsToN r')
            else Z.of_N (digitsToN r)
        | [] => 0%Z
        end
      else 0%Z
  | [] => 0%Z
  end.

Definition decimalOf (lexeme : list N) : N * Z :=
  let s := match lexeme with
           | c :: r => if c =? 45 then r else lexeme
           | [] => []
           end in
  let (ip, s1) := spanDigits s in
  let (fp, s2) := match s1 with
                  | c :: r => if c =? 46 then spanDigits r else ([], s1)
                  | [] => ([], [])
                  end in
  (digitsToN (ip ++ fp), (exponentOf s2 - Z.of_nat (length fp))%Z).

(** The number that [JSON.parse] makes of a lexeme is the nearest double,
    ties to even.  It is zero exactly when the decimal value is at most
    half the least positive double, that is 2 to the power -1075: for a
    mantissa [m] and a negative exponent [e], when [m * 2^1075] is at most
    [10^(-e)]. *)
Definition roundsToZero (lexeme : list N) : bool :=
  let (m, e) := decimalOf lexeme in
  (m =? 0) || ((e <? 0)%Z && (m * 2 ^ 1075 <=? 10 ^ Z.to_N (- e))).

(** Truthiness of a JSON value: a number is falsy when it is zero as a
    double. *)
Definition truthyValue (v : value) : bool :=
  match v with
  | VNull => false
  | VBool b => b
  | VNum n => negb (roundsToZero n)
  | VStr s => truthy s
  | VArr _ | VObj _ => true
  end.

(** The member of an object read by [o.key]: the last one with that key,
    as [JSON.parse] keeps it. *)
Fixpoint lookupLast (key : list N) (ms : list (list N * value)) : option value :=
  match ms with
  | [] => None
  | (k, v) :: ms' =>
      match lookupLast key ms' with
      | Some w => Some w
      | None => if bool_decide (k = key) then Some v else None
      end
  end.

Definition getProp (key : list N) (v : value) : option value :=
  match v with
  | VObj ms => lookupLast key ms
  | _ => None
  end.

(** [(req.body && req.body.question) || ""]. *)
Definition questionOf (reqBody : option value) : value :=
  let x := match reqBody with
           | Some b => if truthyValue b then getProp (lit "question") b else Some b
           | None => None
           end in
  match x with
  | Some v => if truthyValue v then v else VStr []
  | None => VStr []
  end.

Record askRequest : Type := AskRequest {
  askBody : option value;          (* [req.body], [None] when undefined *)
  askSession : N
}.

Definition postAsk (ext : externals) (req : askRequest) : M response :=
  try_
    (match questionOf (askBody req) with
     | VStr question =>
         if negb (truthy (trim question)) then
           ret (errorJson 400 (lit "Missing question"))
         else
           let! st := getState in
           if negb (truthy (lastDocumentText st)) then
             ret (errorJson 400 (lit "No document uploaded yet"))
           else
             let! answer := answerQuestion ext (lastDocumentText st) question
                              (historyOf (askSession req) st) in
             let! now := call EvDateNow (Normal (dateNow ext)) in
             let! st' := getState in
             run! setHistory (askSession req)
                    (historyOf (askSession req) st' ++ [Turn question answer now]) in
             ret (json (VObj [(lit "answer", VStr answer)]))
     | _ => throw TypeError     (* [question.trim] is not a function *)
     end)
    (fun _ =>
       run! call (EvConsoleError (lit "/api/ask error")) (Normal tt) in
       ret (errorJson 500 (lit "Failed to answer question"))).

Definition postHistoryClear (sid : N) : M response :=
  run! setHistory sid [] in
  ret (json (VObj [(lit "ok", VBool true)])).

(** GET /api/history and GET /api/extracted read the state. *)
Definition getHistory (sid : N) : M (list turn) :=
  let! st := getState in ret (historyOf sid st).

(** [lastExtracted || null]. *)
Definition getExtracted : M (option value) :=
  let! st := getState in
  ret (match lastExtracted st with
       | Some v => if truthyValue v then Some v else None
       | None => None
       end).

(** ** Vocabulary of the statements *)

(** The final continuation of [matchHere]. *)
Definition finish : list N -> option (list N) -> option (option (list N)) :=
  fun _ cap => Some cap.

(** What is left of the input closes the fence: blanks, then three
    backticks. *)
Definition closes (s : list N) : bool :=
  startsWith (lit "```") (trimStart s).

(** The part of the expression after the tag, as a regex of its own. *)
Definition bodyRe : regex :=
  RSeq (RStar isWhiteSpace)
    (RSeq (RGroup (RLazy anyChar))
       (RSeq (RStar isWhiteSpace) (rlit (lit "```")))).

(** The tag of a fence, compared as the [i] flag does. *)
Definition isJsonTag (tag : list N) : bool :=
  bool_decide (List.map canon tag = List.map canon (lit "json")).

(** A JSON text [j] wrapped in a fence: three backticks, a tag (empty or
    [json]), blanks, [j], blanks, three backticks. *)
Definition fenced (tag w1 j w2 : list N) : list N :=
  lit "```" ++ tag ++ w1 ++ j ++ w2 ++ lit "```".

(** A collaborator set in which the key is configured and the chat model
    replies with the string [reply]; every other collaborator fails. *)
Definition replyWith (reply : list N) : externals :=
  {| GEMINI_API_KEY := Some (lit "key");
     readFile := fun _ => Throw (Error (lit "ENOENT"));
     readFileUtf8 := fun _ => Throw (Error (lit "ENOENT"));
     loadPdfParse := Throw (Error (lit "MODULE_NOT_FOUND"));
     pdfParse := fun _ => Throw (Error (lit "no parser"));
     chatInvoke := fun _ => Normal (Some (AIMessage (Some (CString reply)) None));
     generateContent := fun _ _ _ => Throw (Error (lit "unavailable"));
     dateNow := 0%Z |}.

(** The result is a JSON object and not null. *)
Definition nonNullObject (c : completion value) : Prop :=
  exists v, c = Normal v /\ isObject v = true /\ isNull v = false.

(** The state with more events in its log. *)
Definition withLog (st : state) (evs : list event) : state :=
  {| lastDocumentText := lastDocumentText st;
     lastExtracted := lastExtracted st;
     sessions := sessions st;
     log := log st ++ evs |}.

(** Two states hold the same document, fields and sessions. *)
Definition sameData (st st' : state) : Prop :=
  lastDocumentText st' = lastDocumentText st
  /\ lastExtracted st' = lastExtracted st
  /\ sessions st' = sessions st.

(** The chat model was not invoked between two states. *)
Definition noChatCall (st st' : state) : Prop :=
  exists evs, log st' = log st ++ evs /\ forall p, EvChatInvoke p ∉ evs.

(** A collaborator set for a plain-text upload: the file holds [fileText]
    and the chat model fails. *)
Definition chatFails (fileText : list N) : externals :=
  {| GEMINI_API_KEY := Some (lit "key");
     readFile := fun _ => Throw (Error (lit "ENOENT"));
     readFileUtf8 := fun _ => Normal fileText;
     loadPdfParse := Throw (Error (lit "MODULE_NOT_FOUND"));
     pdfParse := fun _ => Throw (Error (lit "no parser"));
     chatInvoke := fun _ => Throw (Error (lit "503 Service Unavailable"));
     generateContent := fun _ _ _ => Throw (Error (lit "unavailable"));
     dateNow := 0%Z |}.

(** A state after an earlier upload and one question in session 7. *)
Definition earlierState : state :=
  {| lastDocumentText := lit "Name: John Roe, Loan: 900";
     lastExtracted := Some (VObj [(lit "Customer Name", VStr (lit "John Roe"))]);
     sessions := {[ 7 := Session (Some [Turn (lit "Who?") (lit "John Roe") 1%Z]) ]};
     log := [] |}.

Definition textUpload : uploadRequest :=
  {| file := Some (UploadedFile (lit "uploads/3f9a") (lit "text/plain"));
     uploadSession := 7 |}.

(** The text of the native PDF parse, trimmed; [None] when loading the
    parser or parsing throws. *)
Definition nativeParsed (ext : externals) (buffer : list N) : option (list N) :=
  match loadPdfParse ext, pdfParse ext buffer with
  | Normal _, Normal data => Some (trim (default [] data))
  | _, _ => None
  end.

(** The vision model was called, or not, between two states. *)
Definition visionCalled (instruction mimeType buffer : list N) (st st' : state) : Prop :=
  exists evs, log st' = log st ++ evs
              /\ EvGenerateContent instruction mimeType buffer ∈ evs.

Definition noVisionCall (st st' : state) : Prop :=
  exists evs, log st' = log st ++ evs
              /\ forall i m b, EvGenerateContent i m b ∉ evs.

(** The usable text of a reply of the vision model: the first non-empty
    one of [response.text()] and the text of the first candidate part. *)
Definition usableText (r : genResult) : option (list N) :=
  match genResp r with
  | Some (GenResponse t c) =>
      match t with
      | Some (Normal (x :: s)) => Some (x :: s)
      | _ => match c with
             | Some (x :: s) => Some (x :: s)
             | _ => None
             end
      end
  | None => None
  end.

Definition textThrows (r : genResult) : Prop :=
  exists e c, genResp r = Some (GenResponse (Some (Throw e)) c).

(** A collaborator set for a scanned PDF: the native parse finds no text
    and the vision model answers with the instruction it was given. *)
Definition ocrEcho : externals :=
  {| GEMINI_API_KEY := Some (lit "key");
     readFile := fun _ => Normal (lit "%PDF-1.4");
     readFileUtf8 := fun _ => Normal (lit "%PDF-1.4");
     loadPdfParse := Normal tt;
     pdfParse := fun _ => Normal (Some []);
     chatInvoke := fun _ => Throw (Error (lit "503 Service Unavailable"));
     generateContent := fun instruction _ _ =>
       Normal (GenResult (Some (GenResponse (Some (Normal instruction)) None)));
     dateNow := 0%Z |}.

(** A collaborator set for a PDF with a text layer: the native parse
    returns [text]. *)
Definition nativePdf (text : list N) : externals :=
  {| GEMINI_API_KEY := Some (lit "key");
     readFile := fun _ => Normal (lit "%PDF-1.4");
     readFileUtf8 := fun _ => Normal (lit "%PDF-1.4");
     loadPdfParse := Normal tt;
     pdfParse := fun _ => Normal (Some text);
     chatInvoke := fun _ => Throw (Error (lit "503 Service Unavailable"));
     generateContent := fun _ _ _ => Throw (Error (lit "unavailable"));
     dateNow := 0%Z |}.

Definition agreementText : list N :=
  lit "Loan agreement between Jane Doe and the bank: amount 5000, tenure 24 months.".

(** The last [n] entries of a history, oldest first. *)
Definition lastTurns (n : nat) (h : list turn) : list turn :=
  drop (length h - n) h.

(** *** The text of the Q&A prompt, written out

    What the prompt must read, character by character, stated without the
    functions of the program: the decimal numeral is the one of the
    standard library, a line break is the code unit 10. *)

Definition decimal (n : nat) : list N :=
  lit (NilEmpty.string_of_uint (Nat.to_uint n)).

(** The block of one turn, numbered [k]. *)
Definition turnText (k : nat) (t : turn) : list N :=
  lit "Turn " ++ decimal k ++ lit ":" ++ [10]
  ++ lit "Q: " ++ q t ++ [10]
  ++ lit "A: " ++ a t.

(** The blocks of the turns of [w], in the order of [w], numbered from
    [k], with an empty line between two blocks. *)
Fixpoint turnsText (k : nat) (w : list turn) : list N :=
  match w with
  | [] => []
  | [t] => turnText k t
  | t :: w' => turnText k t ++ [10; 10] ++ turnsText (S k) w'
  end.

(** The history block: nothing for an empty history; else a heading, the
    blocks of the last 12 turns numbered from 1, and an empty line. *)
Definition historyText (h : list turn) : list N :=
  match h with
  | [] => []
  | _ => lit "Previous Q&A (most recent last):" ++ [10]
         ++ turnsText 1 (lastTurns 12 h) ++ [10; 10]
  end.

Definition promptText (documentText question : list N) (h : list turn) : list N :=
  lit "You are a helpful loan document assistant. Use the document and the prior Q&A context to answer."
  ++ [10; 10] ++ lit "Document:" ++ [10] ++ documentText ++ [10; 10]
  ++ historyText h ++ lit "Question:" ++ [10] ++ question.

(** A session of twenty turns. *)
Definition sessionTurns : list turn :=
   [Turn (lit "Question 1?") (lit "Answer 1.") 1%Z;
    Turn (lit "Question 2?") (lit "Answer 2.") 2%Z;
    Turn (lit "Question 3?") (lit "Answer 3.") 3%Z;
    Turn (lit "Question 4?") (lit "Answer 4.") 4%Z;
    Turn (lit "Question 5?") (lit "Answer 5.") 5%Z;
    Turn (lit "Question 6?") (lit "Answer 6.") 6%Z;
    Turn (lit "Question 7?") (lit "Answer 7.") 7%Z;
    Turn (lit "Question 8?") (lit "Answer 8.") 8%Z;
    Turn (lit "Question 9?") (lit "Answer 9.") 9%Z;
    Turn (lit "Question 10?") (lit "Answer 10.") 10%Z;
    Turn (lit "Question 11?") (lit "Answer 11.") 11%Z;
    Turn (lit "Question 12?") (lit "Answer 12.") 12%Z;
    Turn (lit "Question 13?") (lit "Answer 13.") 13%Z;
    Turn (lit "Question 14?") (lit "Answer 14.") 14%Z;
    Turn (lit "Question 15?") (lit "Answer 15.") 15%Z;
    Turn (lit "Question 16?") (lit "Answer 16.") 16%Z;
    Turn (lit "Question 17?") (lit "Answer 17.") 17%Z;
    Turn (lit "Question 18?") (lit "Answer 18.") 18%Z;
    Turn (lit "Question 19?") (lit "Answer 19.") 19%Z;
    Turn (lit "Question 20?") (lit "Answer 20.") 20%Z].

(** [parseValue] with fuel [f] consumes at least one token, and any fuel
    not below the number of tokens it consumes gives the same result. *)
Definition fuelEnough (f : nat) : Prop :=
  forall ts v r,
    parseValue f ts = Some (v, r) ->
    (length r < length ts)%nat
    /\ forall m, (length ts - length r <= m)%nat -> parseValue m ts = Some (v, r).

(** A collaborator set for a plain-text upload with a stubbed chat model:
    the file holds [fileText] and the model replies [reply]. *)
Definition stubbed (fileText reply : list N) : externals :=
  {| GEMINI_API_KEY := Some (lit "key");
     readFile := fun _ => Throw (Error (lit "ENOENT"));
     readFileUtf8 := fun _ => Normal fileText;
     loadPdfParse := Throw (Error (lit "MODULE_NOT_FOUND"));
     pdfParse := fun _ => Throw (Error (lit "no parser"));
     chatInvoke := fun _ => Normal (Some (AIMessage (Some (CString reply)) None));
     generateContent := fun _ _ _ => Throw (Error (lit "unavailable"));
     dateNow := 1700000000000%Z |}.

(** The reply of the stubbed model in the end-to-end scenario: the five
    fields in a fence tagged [json]. *)
Definition fencedReply : list N :=
  litq "```json
{'Customer Name':'Jane Doe','Loan Amount':'5000','PAN/Aadhaar':'','Loan Tenure':'','Collateral Type':''}
```".

Definition janeFields : value :=
  VObj [(lit "Customer Name", VStr (lit "Jane Doe"));
        (lit "Loan Amount", VStr (lit "5000"));
        (lit "PAN/Aadhaar", VStr []);
        (lit "Loan Tenure", VStr []);
        (lit "Collateral Type", VStr [])].

(** No backtick occurs in the text. *)
Definition noBacktick (s : list N) : bool :=
  forallb (fun c => negb (c =? 96)) s.

(** A reply with prose around a fenced block: [before], the fence with its
    tag, blanks and [body], then [after]. *)
Definition fencedIn (before tag w1 body w2 after : list N) : list N :=
  before ++ fenced tag w1 body w2 ++ after.

(** A fence body the lazy capture takes whole: it is not blank, holds no
    three backticks in a row and does not end with a backtick. *)
Definition plainBody (body : list N) : Prop :=
  trim body <> [] /\ includes (lit "```") body = false
  /\ last (trim body) <> Some 96.

(** The sessions other than [sid] are as before. *)
Definition othersKept (sid : N) (st st' : state) : Prop :=
  forall other, other <> sid -> sessions st' !! other = sessions st !! other.

(** The status of a response is one of the three the handlers use. *)
Definition knownStatus (r : response) : Prop :=
  status r = 200%nat \/ status r = 400%nat \/ status r = 500%nat.

(** The log only grows between two states. *)
Definition logGrows (st st' : state) : Prop :=
  exists evs, log st' = log st ++ evs.

(** A collaborator set without the API key. *)
Definition noKey : externals :=
  {| GEMINI_API_KEY := None;
     readFile := fun _ => Normal (lit "%PDF-1.4");
     readFileUtf8 := fun _ => Normal (lit "Name: Jane Doe, Loan: 5000");
     loadPdfParse := Normal tt;
     pdfParse := fun _ => Normal (Some []);
     chatInvoke := fun _ => Normal (Some (AIMessage (Some (CString (lit "{}"))) None));
     generateContent := fun instruction _ _ =>
       Normal (GenResult (Some (GenResponse (Some (Normal instruction)) None)));
     dateNow := 0%Z |}.

(** The requests that change the state of the process. *)
Inductive request : Type :=
| Upload (ext : externals) (req : uploadRequest)
| Ask (ext : externals) (req : askRequest)
| ClearHistory (sid : N).

Definition handle (r : request) : M response :=
  match r with
  | Upload ext req => postUpload ext req
  | Ask ext req => postAsk ext req
  | ClearHistory sid => postHistoryClear sid
  end.

(** The states the server can be in: the initial one, and the state after
    any request, with any behaviour of the collaborators. *)
Inductive reachable : state -> Prop :=
| reachable_init : reachable initialState
| reachable_step st r : reachable st -> reachable (snd (handle r st)).

(** A recorded turn: its question is not blank and its answer is trimmed. *)
Definition turnOk (t : turn) : Prop :=
  trim (q t) <> [] /\ trim (a t) = a t.

Definition stateInvariant (st : state) : Prop :=
  (lastDocumentText st = [] \/ trim (lastDocumentText st) <> [])
  /\ (lastExtracted st <> None -> lastDocumentText st <> [])
  /\ (forall sid, historyOf sid st <> [] -> lastDocumentText st <> [])
  /\ (forall sid t, t ∈ historyOf sid st -> turnOk t).

(** * Properties *)

(** ** Sanity checks of the embedding on concrete inputs *)

Example parse_null : Json.parse (lit "null") = Normal VNull.
Proof. reflexivity. Qed.

Example parse_object :
  Json.parse (litq "{ 'a' : [1, -2.5e3, true], 'b': {'c': 'x\ny'} }")
  = Normal (VObj [(lit "a", VArr [VNum (lit "1"); VNum (lit "-2.5e3"); VBool true]);
                  (lit "b", VObj [(lit "c", VStr [120; 10; 121])])]).
Proof. vm_compute. reflexivity. Qed.

Example parse_bad1 : Json.parse (litq "{'a':1,}") = Throw SyntaxError.
Proof. reflexivity. Qed.

Example parse_bad2 : Json.parse (lit "01") = Throw SyntaxError.
Proof. reflexivity. Qed.

Example safeParse_fenced :
  safeParseJson (litq "Here you go: ```JSON
 {'Customer Name':'Jane Doe','Loan Amount':'5000'}
``` done")
  = Normal (VObj [(lit "Customer Name", VStr (lit "Jane Doe"));
                  (lit "Loan Amount", VStr (lit "5000"))]).
Proof. vm_compute. reflexivity. Qed.

Example safeParse_raw :
  safeParseJson (lit "  no json here ") = Normal (VObj [(lit "raw", VStr (lit "no json here"))]).
Proof. vm_compute. reflexivity. Qed.

Example safeParse_null : safeParseJson (lit "null") = Normal VNull.
Proof. reflexivity. Qed.

Example safeParse_inner_fence :
  safeParseJson (litq "```json
'```'
```") = Normal (rawObject (litq "```json
'```'
```")).
Proof. vm_compute. reflexivity. Qed.

(** ** Strings: trimming, prefixes and substrings *)

(** Boolean tests on code units, turned into arithmetic facts. *)
Ltac b2p :=
  repeat (rewrite ?orb_true_iff, ?andb_true_iff, ?orb_false_iff,
            ?andb_false_iff, ?negb_true_iff, ?negb_false_iff,
            ?N.eqb_eq, ?N.eqb_neq, ?N.leb_le, ?N.leb_gt,
            ?N.ltb_lt, ?N.ltb_ge in *).

Section StringFacts.

Lemma trimStart_ws (w s : list N) :
  forallb isWhiteSpace w = true -> trimStart (w ++ s) = trimStart s.
Proof.
  induction w as [|c w IH]; simpl; [done|].
  intros [Hc Hw]%andb_true_iff. rewrite Hc. by apply IH.
Qed.

Lemma trimStart_all_ws (w : list N) :
  forallb isWhiteSpace w = true -> trimStart w = [].
Proof.
  intros Hw. rewrite <- (app_nil_r w). by rewrite trimStart_ws.
Qed.

Lemma trimStart_split (s : list N) :
  exists w, s = w ++ trimStart s /\ forallb isWhiteSpace w = true.
Proof.
  induction s as [|c s [w [Hs Hw]]]; simpl.
  - by exists [].
  - destruct (isWhiteSpace c) eqn:Hc.
    + exists (c :: w). simpl. rewrite Hc, Hw. by rewrite <- Hs.
    + by exists [].
Qed.

Lemma trimStart_head (s : list N) c t :
  trimStart s = c :: t -> isWhiteSpace c = false.
Proof.
  induction s as [|d s IH]; simpl; [done|].
  destruct (isWhiteSpace d) eqn:Hd; [done|].
  intros [= -> _]. done.
Qed.

Lemma trimStart_fixed (c : N) (t : list N) :
  isWhiteSpace c = false -> trimStart (c :: t) = c :: t.
Proof. simpl. by intros ->. Qed.

(** Text that ends in a non-blank keeps its end under [trimStart]. *)
Lemma trimStart_snoc (u : list N) (c : N) :
  isWhiteSpace c = false -> trimStart (u ++ [c]) = trimStart u ++ [c].
Proof.
  intros Hc. induction u as [|d u IH]; simpl.
  - by rewrite Hc.
  - destruct (isWhiteSpace d); [exact IH | done].
Qed.

Lemma trimStart_app (u r : list N) :
  trimStart u <> [] -> trimStart (u ++ r) = trimStart u ++ r.
Proof.
  induction u as [|d u IH]; simpl; [done|].
  destruct (isWhiteSpace d); [exact IH | done].
Qed.

Lemma forallb_rev (p : N -> bool) (w : list N) :
  forallb p (rev w) = forallb p w.
Proof.
  induction w as [|c w IH]; simpl; [done|].
  rewrite forallb_app, IH. simpl. rewrite andb_true_r. apply andb_comm.
Qed.

Lemma trimEnd_ws (s w : list N) :
  forallb isWhiteSpace w = true -> trimEnd (s ++ w) = trimEnd s.
Proof.
  intros Hw. unfold trimEnd. rewrite rev_app_distr, trimStart_ws; [done|].
  by rewrite forallb_rev.
Qed.

Lemma trimEnd_split (s : list N) :
  exists w, s = trimEnd s ++ w /\ forallb isWhiteSpace w = true.
Proof.
  destruct (trimStart_split (rev s)) as [w [Hs Hw]].
  exists (rev w). split; [|by rewrite forallb_rev].
  unfold trimEnd. rewrite <- rev_app_distr, <- Hs. by rewrite rev_involutive.
Qed.

Lemma trimEnd_last (s t : list N) (c : N) :
  trimEnd s = t ++ [c] -> isWhiteSpace c = false.
Proof.
  unfold trimEnd. intros H.
  apply (f_equal (@rev N)) in H. rewrite rev_involutive, rev_app_distr in H.
  simpl in H. by eapply trimStart_head.
Qed.

Lemma trimEnd_cons (c : N) (t : list N) :
  isWhiteSpace c = false -> trimEnd (c :: t) = c :: trimEnd t.
Proof.
  intros Hc. unfold trimEnd. simpl. rewrite trimStart_snoc by done.
  by rewrite rev_app_distr.
Qed.

(** The trimmed text is blank-free at both ends. *)
Lemma trim_ends (s : list N) :
  trim s = [] \/
  exists c m d, (trim s = c :: m) /\ (exists m', trim s = m' ++ [d])
                /\ isWhiteSpace c = false /\ isWhiteSpace d = false.
Proof.
  unfold trim. destruct (trimStart s) as [|c t] eqn:Hs.
  - left. reflexivity.
  - right. pose proof (trimStart_head _ _ _ Hs) as Hc.
    rewrite (trimEnd_cons _ _ Hc).
    destruct (@exists_last N (c :: trimEnd t)) as [m' [d Hd]]; [done|].
    exists c, (trimEnd t), d. repeat split; [by exists m' | done |].
    apply (trimEnd_last (c :: t) m'). by rewrite trimEnd_cons.
Qed.

Lemma trim_split (s : list N) :
  exists w1 w2, s = w1 ++ trim s ++ w2
                /\ forallb isWhiteSpace w1 = true
                /\ forallb isWhiteSpace w2 = true.
Proof.
  destruct (trimStart_split s) as [w1 [H1 Hw1]].
  destruct (trimEnd_split (trimStart s)) as [w2 [H2 Hw2]].
  exists w1, w2. unfold trim. by rewrite <- H2, <- H1.
Qed.

(** Blanks around a text do not change what [trim] leaves. *)
Lemma trim_padding (w1 s w2 : list N) :
  forallb isWhiteSpace w1 = true -> forallb isWhiteSpace w2 = true ->
  trim (w1 ++ s ++ w2) = trim s.
Proof.
  intros H1 H2. unfold trim. rewrite trimStart_ws by done.
  destruct (trimStart s) as [|c t] eqn:Hs.
  - destruct (trimStart_split s) as [w [Hw Hws]]. rewrite Hs, app_nil_r in Hw.
    subst w. rewrite trimStart_all_ws; [done|].
    rewrite forallb_app. by rewrite Hws, H2.
  - rewrite trimStart_app by (by rewrite Hs). rewrite Hs.
    by apply trimEnd_ws.
Qed.

Lemma trim_all_ws (w : list N) :
  forallb isWhiteSpace w = true -> trim w = [].
Proof. intros Hw. unfold trim. by rewrite trimStart_all_ws. Qed.

Lemma startsWith_app (p s r : list N) :
  startsWith p s = true -> startsWith p (s ++ r) = true.
Proof.
  revert s. induction p as [|x p IH]; intros [|y s]; simpl; try done.
  intros [-> Hs]%andb_true_iff. simpl. by apply IH.
Qed.

Lemma includes_app_l (p s r : list N) :
  includes p (s ++ r) = false -> includes p s = false.
Proof.
  induction s as [|y s IH].
  - simpl. destruct p; [|done]. by destruct r.
  - rewrite <- app_comm_cons. cbn [includes].
    intros [H1 H2]%orb_false_iff. apply orb_false_iff. split; [|by apply IH].
    destruct (startsWith p (y :: s)) eqn:E; [|done].
    apply (startsWith_app _ _ r) in E. rewrite <- app_comm_cons in E.
    congruence.
Qed.

Lemma includes_app_r (p s r : list N) :
  includes p (s ++ r) = false -> includes p r = false.
Proof.
  induction s as [|y s IH]; simpl; [done|].
  intros [_ H2]%orb_false_iff. by apply IH.
Qed.

Lemma includes_head (p s : list N) :
  includes p s = false -> startsWith p s = false.
Proof. destruct s; simpl; by intros [H _]%orb_false_iff. Qed.

End StringFacts.

(** ** The lexer of [JSON.parse] and the blanks around a JSON text *)

Section LexerFacts.

(** A blank read between two tokens is JSON whitespace, or the text is
    refused. *)
Lemma startStep_blank (c : N) st ts :
  isWhiteSpace c = true -> startStep c = Some (st, ts) ->
  st = LStart /\ ts = [].
Proof.
  intros Hc. unfold startStep.
  destruct (isJsonWs c); [by intros [= <- <-]|].
  repeat match goal with
         | |- context [if ?b then _ else _] =>
             let E := fresh "E" in
             destruct b eqn:E;
             [exfalso; unfold isWhiteSpace, isDigit, isLower in *; b2p; lia|]
         end.
  done.
Qed.

Lemma lex_trimStart (s : list N) ts :
  lex LStart s = Some ts -> lex LStart (trimStart s) = Some ts.
Proof.
  induction s as [|c s IH]; [done|].
  intros H. cbn [trimStart]. destruct (isWhiteSpace c) eqn:Hc; [|done].
  apply IH. cbn [lex lexStep] in H.
  destruct (startStep c) as [[st' ts']|] eqn:E; [|done].
  destruct (startStep_blank _ _ _ Hc E) as [-> ->].
  destruct (lex LStart s); simpl in *; congruence.
Qed.

(** A blank at the very end of an accepted text is outside every token:
    removing it leaves the tokens unchanged. *)
Lemma lex_blank_end (c : N) st ts :
  isWhiteSpace c = true -> lex st [c] = Some ts -> lexEnd st = Some ts.
Proof.
  intros Hc. cbn [lex].
  destruct st as [|acc|acc|acc hs|acc|acc]; cbn [lexStep lexEnd].
  - destruct (startStep c) as [[st' ts']|] eqn:E; [|done].
    destruct (startStep_blank _ _ _ Hc E) as [-> ->]. done.
  - repeat match goal with
           | |- context [if ?b then _ else _] =>
               let E := fresh "E" in destruct b eqn:E
           end; try done;
      exfalso; unfold isWhiteSpace in *; b2p; lia.
  - destruct (c =? 117) eqn:E; [done|].
    unfold escapeChar.
    repeat match goal with
           | |- context [if ?b then _ else _] =>
               let E := fresh "E" in
               destruct b eqn:E;
               [exfalso; unfold isWhiteSpace in *; b2p; lia|]
           end.
    done.
  - unfold hexVal.
    repeat match goal with
           | |- context [if ?b then _ else _] =>
               let E := fresh "E" in
               destruct b eqn:E;
               [exfalso; unfold isWhiteSpace, isDigit in *; b2p; lia|]
           end.
    done.
  - destruct (isNumChar c) eqn:E.
    { exfalso. unfold isWhiteSpace, isNumChar, isDigit in *. b2p. lia. }
    unfold after. destruct (endNumber acc) as [tk|]; [|done].
    destruct (startStep c) as [[st' ts']|] eqn:E'; [|done].
    destruct (startStep_blank _ _ _ Hc E') as [-> ->]. done.
  - destruct (isLower c) eqn:E.
    { exfalso. unfold isWhiteSpace, isLower in *. b2p. lia. }
    unfold after. destruct (endWord acc) as [tk|]; [|done].
    destruct (startStep c) as [[st' ts']|] eqn:E'; [|done].
    destruct (startStep_blank _ _ _ Hc E') as [-> ->]. done.
Qed.

Lemma lex_drop_blank (s : list N) (c : N) st ts :
  isWhiteSpace c = true -> lex st (s ++ [c]) = Some ts -> lex st s = Some ts.
Proof.
  intros Hc. revert st ts. induction s as [|x s IH]; intros st ts.
  - apply lex_blank_end, Hc.
  - rewrite <- app_comm_cons. cbn [lex].
    destruct (lexStep st x) as [[st' ts']|]; [|done].
    destruct (lex st' (s ++ [c])) as [r|] eqn:E; [|done].
    by rewrite (IH _ _ E).
Qed.

Lemma lex_trimEnd (s : list N) ts :
  lex LStart s = Some ts -> lex LStart (trimEnd s) = Some ts.
Proof.
  induction s as [|c s IH] using rev_ind; [done|].
  intros H. unfold trimEnd. rewrite rev_app_distr. cbn [rev app trimStart].
  destruct (isWhiteSpace c) eqn:Hc.
  - apply IH. by eapply lex_drop_blank.
  - change (lex LStart (rev (rev [c] ++ rev s)) = Some ts).
    by rewrite <- rev_app_distr, rev_involutive.
Qed.

Lemma lex_trim (s : list N) ts :
  lex LStart s = Some ts -> lex LStart (trim s) = Some ts.
Proof. intros H. by apply lex_trimEnd, lex_trimStart. Qed.

(** No JSON text ends with a backtick. *)
Lemma lex_backtick_end (s : list N) st : lex st (s ++ [96]) = None.
Proof.
  revert st. induction s as [|x s IH]; intros st.
  - destruct st as [|acc|acc|acc hs|acc|acc]; try reflexivity.
    + cbn. unfold after. by destruct (endNumber acc).
    + cbn. unfold after. by destruct (endWord acc).
  - rewrite <- app_comm_cons. cbn [lex].
    destruct (lexStep st x) as [[st' ts']|]; [|done]. by rewrite IH.
Qed.

(** A word that does not start with t, f or n is no literal. *)
Lemma keyword_first (w : list N) tk :
  keyword w = Some tk -> exists c r, w = c :: r /\ (c = 116 \/ c = 102 \/ c = 110).
Proof.
  unfold keyword.
  repeat match goal with
         | |- context [decide ?P] => destruct (decide P) as [->|]
         end; try done; intros _; cbv; eexists _, _; (split; [reflexivity|lia]).
Qed.

Lemma lex_word_first (s : list N) acc c0 ts :
  lex (LWord (acc ++ [c0])) s = Some ts -> c0 = 116 \/ c0 = 102 \/ c0 = 110.
Proof.
  revert acc ts. induction s as [|x s IH]; intros acc ts.
  - cbn. unfold endWord. rewrite rev_app_distr. cbn.
    destruct (keyword (c0 :: rev acc)) as [tk|] eqn:E; [|done].
    destruct (keyword_first _ _ E) as (c & r & [= <- _] & H). done.
  - cbn [lex lexStep]. destruct (isLower x).
    + destruct (lex (LWord (x :: acc ++ [c0])) s) as [r|] eqn:E; [|done].
      intros _. by apply (IH (x :: acc) r).
    + unfold after, endWord. rewrite rev_app_distr. cbn [rev app].
      destruct (keyword (c0 :: rev acc)) as [tk|] eqn:E; [|done].
      destruct (keyword_first _ _ E) as (c & r & [= <- _] & H). done.
Qed.

(** No JSON text starts with the letter j, in either case. *)
Lemma lex_head_not_j (c : N) (s : list N) ts :
  lex LStart (c :: s) = Some ts -> canon c <> 74.
Proof.
  intros H Hc.
  assert (c = 74 \/ c = 106) as [-> | ->].
  { unfold canon in Hc. destruct ((97 <=? c) && (c <=? 122)) eqn:E; b2p; lia. }
  - done.
  - cbn in H. destruct (lex (LWord [106]) s) as [r|] eqn:E; [|done].
    apply (lex_word_first s [] 106) in E. lia.
Qed.

Lemma parse_lex (s : list N) v :
  Json.parse s = Normal v ->
  exists ts, lex LStart s = Some ts /\ parseTokens ts = Some v.
Proof.
  unfold Json.parse. destruct (lex LStart s) as [ts|]; [|done].
  destruct (parseTokens ts) as [w|] eqn:E; [|done].
  intros [= <-]. by exists ts.
Qed.

(** [JSON.parse] ignores the blanks around its argument. *)
Lemma parse_trim (s : list N) v :
  Json.parse s = Normal v -> Json.parse (trim s) = Normal v.
Proof.
  intros (ts & Hl & Hp)%parse_lex. unfold Json.parse.
  by rewrite (lex_trim _ _ Hl), Hp.
Qed.

Lemma parse_nonblank (s : list N) v :
  Json.parse s = Normal v -> trim s <> [].
Proof.
  intros H%parse_trim E. rewrite E in H. done.
Qed.

Lemma parse_backtick (s : list N) : Json.parse (96 :: s) = Throw SyntaxError.
Proof. reflexivity. Qed.

End LexerFacts.

(** ** The fuel of the parser is enough *)

Section ParserFuel.

Lemma parseItems_fuel f :
  fuelEnough f ->
  forall g acc rr v r,
    parseItems (parseValue f) g acc rr = Some (v, r) ->
    (length r < length rr)%nat
    /\ forall m k, (length rr - length r <= m)%nat ->
                   (length rr - length r <= k)%nat ->
                   parseItems (parseValue m) k acc rr = Some (v, r).
Proof.
  intros Hf. induction g as [|g IH]; intros acc rr v r H; [done|].
  cbn [parseItems] in H. destruct rr as [|t rr]; [done|].
  destruct t; try done.
  - injection H as <- <-. split; [cbn; lia|].
    intros m [|k] _ Hk; [cbn in Hk; lia | done].
  - destruct (parseValue f rr) as [[v2 r3]|] eqn:E; [|done].
    destruct (Hf _ _ _ E) as [Hlt Hm].
    destruct (IH _ _ _ _ H) as [Hlt' Hk'].
    split; [cbn; lia|].
    intros m [|k] Hm1 Hk1; [cbn in Hk1; lia|].
    cbn [parseItems]. cbn [length] in Hm1, Hk1.
    rewrite (Hm m) by lia. apply Hk'; lia.
Qed.

Lemma parseMember_fuel f :
  fuelEnough f ->
  forall ts mv r,
    parseMember (parseValue f) ts = Some (mv, r) ->
    (length r < length ts)%nat
    /\ forall m, (length ts - length r <= m)%nat ->
                 parseMember (parseValue m) ts = Some (mv, r).
Proof.
  intros Hf ts mv r H. unfold parseMember in *.
  destruct ts as [|[] [|[] ts]]; try done.
  destruct (parseValue f ts) as [[v2 r3]|] eqn:E; [|done].
  injection H as <- <-.
  destruct (Hf _ _ _ E) as [Hlt Hm].
  split; [cbn; lia|]. intros m Hle. cbn [length] in Hle.
  by rewrite (Hm m) by lia.
Qed.

Lemma parseMembers_fuel f :
  fuelEnough f ->
  forall g acc rr v r,
    parseMembers (parseValue f) g acc rr = Some (v, r) ->
    (length r < length rr)%nat
    /\ forall m k, (length rr - length r <= m)%nat ->
                   (length rr - length r <= k)%nat ->
                   parseMembers (parseValue m) k acc rr = Some (v, r).
Proof.
  intros Hf. induction g as [|g IH]; intros acc rr v r H; [done|].
  cbn [parseMembers] in H. destruct rr as [|t rr]; [done|].
  destruct t; try done.
  - injection H as <- <-. split; [cbn; lia|].
    intros m [|k] _ Hk; [cbn in Hk; lia | done].
  - destruct (parseMember (parseValue f) rr) as [[m2 r3]|] eqn:E; [|done].
    destruct (parseMember_fuel f Hf _ _ _ E) as [Hlt Hm].
    destruct (IH _ _ _ _ H) as [Hlt' Hk'].
    split; [cbn; lia|].
    intros m [|k] Hm1 Hk1; [cbn in Hk1; lia|].
    cbn [parseMembers]. cbn [length] in Hm1, Hk1.
    rewrite (Hm m) by lia. apply Hk'; lia.
Qed.

Lemma parseValue_fuel f : fuelEnough f.
Proof.
  induction f as [|f IH]; intros ts v r H; [done|].
  cbn [parseValue] in H.
  destruct ts as [|t ts]; [done|].
  destruct t; try done;
    try (injection H as <- <-; split; [cbn; lia|];
         intros [|m] Hm; [cbn in Hm; lia | done]).
  - (* an object *)
    destruct ts as [|t ts]; [done|].
    assert (t = TRBrace \/
            (t <> TRBrace /\
             match parseMember (parseValue f) (t :: ts) with
             | Some (m, r') => parseMembers (parseValue f) f [m] r'
             | None => None
             end = Some (v, r))) as [-> | [Hne H']].
    { destruct t; auto; right; (split; [done | exact H]). }
    + injection H as <- <-. split; [cbn; lia|].
      intros [|m] Hm; [cbn in Hm; lia | done].
    + clear H.
      destruct (parseMember (parseValue f) (t :: ts)) as [[m1 r1]|] eqn:E; [|done].
      destruct (parseMember_fuel f IH _ _ _ E) as [Hlt Hm].
      destruct (parseMembers_fuel f IH _ _ _ _ _ H') as [Hlt' Hk'].
      split; [cbn in *; lia|].
      intros [|m] Hle; [cbn in *; lia|].
      cbn [length] in Hle, Hlt.
      assert (parseValue (S m) (TLBrace :: t :: ts)
              = match parseMember (parseValue m) (t :: ts) with
                | Some (m0, r') => parseMembers (parseValue m) m [m0] r'
                | None => None
                end) as ->.
      { cbn [parseValue]. destruct t; try reflexivity; congruence. }
      rewrite (Hm m) by (cbn [length]; lia). apply Hk'; lia.
  - (* an array *)
    destruct ts as [|t ts]; [by destruct f|].
    assert (t = TRBrack \/
            (t <> TRBrack /\
             match parseValue f (t :: ts) with
             | Some (v1, r') => parseItems (parseValue f) f [v1] r'
             | None => None
             end = Some (v, r))) as [-> | [Hne H']].
    { destruct t; auto; right; (split; [done | exact H]). }
    + injection H as <- <-. split; [cbn; lia|].
      intros [|m] Hm; [cbn in Hm; lia | done].
    + clear H.
      destruct (parseValue f (t :: ts)) as [[v1 r1]|] eqn:E; [|done].
      destruct (IH _ _ _ E) as [Hlt Hm].
      destruct (parseItems_fuel f IH _ _ _ _ _ H') as [Hlt' Hk'].
      split; [cbn in *; lia|].
      intros [|m] Hle; [cbn in *; lia|].
      cbn [length] in Hle, Hlt.
      assert (parseValue (S m) (TLBrack :: t :: ts)
              = match parseValue m (t :: ts) with
                | Some (v0, r') => parseItems (parseValue m) m [v0] r'
                | None => None
                end) as ->.
      { cbn [parseValue]. destruct t; try reflexivity; congruence. }
      rewrite (Hm m) by (cbn [length]; lia). apply Hk'; lia.
Qed.

(** [parseTokens] accepts exactly the token lists that the parser accepts
    with some fuel: its own fuel never runs out. *)
Lemma parseTokens_any_fuel (ts : list token) (v : value) :
  parseTokens ts = Some v <-> exists f, parseValue f ts = Some (v, []).
Proof.
  unfold parseTokens. split.
  - destruct (parseValue (S (length ts)) ts) as [[w [|t r]]|] eqn:E; try done.
    intros [= <-]. by exists (S (length ts)).
  - intros [f Hf]. destruct (parseValue_fuel f _ _ _ Hf) as [_ Hm].
    rewrite (Hm (S (length ts))) by (cbn; lia). done.
Qed.

End ParserFuel.

#[local] Arguments N.eqb : simpl never.
#[local] Arguments N.leb : simpl never.
#[local] Arguments N.sub : simpl never.
#[local] Arguments Nat.ltb : simpl never.

(** ** The fence expression on a fenced text *)

Section FenceFacts.

Lemma canon_backtick (d : N) : (canon 96 =? canon d) = (96 =? d).
Proof.
  change (canon 96) with 96. unfold canon.
  destruct ((97 <=? d) && (d <=? 122)) eqn:E; [|done].
  destruct (N.eqb_spec 96 (d - 32)), (N.eqb_spec 96 d); b2p; try done; lia.
Qed.

Lemma blank_not_backtick (c : N) : isWhiteSpace c = true -> (96 =? c) = false.
Proof. intros H. unfold isWhiteSpace in H. b2p. lia. Qed.

Lemma run_backticks {R} (s : list N) cap
  (k : list N -> option (list N) -> option R) :
  run (rlit (lit "```")) s cap k
  = if startsWith (lit "```") s then k (drop 3 s) cap else None.
Proof.
  change (lit "```") with [96; 96; 96].
  destruct s as [|x [|y [|z s]]]; cbn; rewrite ?canon_backtick;
    repeat match goal with
           | |- context [96 =? ?d] => destruct (96 =? d)
           end; done.
Qed.

Lemma starGreedy_ext {R} p s (k k' : list N -> option R) :
  (forall x, k x = k' x) -> starGreedy p s k = starGreedy p s k'.
Proof.
  intros H. induction s as [|c s IH]; cbn; [done|].
  by rewrite IH, H.
Qed.

Lemma starLazy_ext {R} p s (k k' : list N -> option R) :
  (forall x, k x = k' x) -> starLazy p s k = starLazy p s k'.
Proof.
  intros H. induction s as [|c s IH]; cbn; rewrite H; [done|].
  by rewrite IH.
Qed.

(** The closing part of the expression succeeds exactly on [closes]. *)
Lemma run_closing (s : list N) cap :
  run (RSeq (RStar isWhiteSpace) (rlit (lit "```"))) s cap finish
  = if closes s then Some cap else None.
Proof.
  cbn [run]. unfold closes. induction s as [|c s IH].
  - reflexivity.
  - cbn [starGreedy trimStart]. destruct (isWhiteSpace c) eqn:Hc.
    + rewrite IH. destruct (startsWith (lit "```") (trimStart s)); [done|].
      rewrite run_backticks. change (lit "```") with [96; 96; 96].
      cbn [startsWith]. by rewrite (blank_not_backtick c Hc).
    + rewrite run_backticks. unfold finish.
      by destruct (startsWith (lit "```") (c :: s)).
Qed.

(** A greedy star stops at the longest run when the rest then matches. *)
Lemma starGreedy_longest {R} p (w s : list N) (k : list N -> option R) x :
  forallb p w = true ->
  match s with [] => True | c :: _ => p c = false end ->
  k s = Some x ->
  starGreedy p (w ++ s) k = Some x.
Proof.
  intros Hw Hs Hk. induction w as [|c w IH]; cbn.
  - destruct s as [|c s]; [done|]. cbn. by rewrite Hs.
  - cbn in Hw. apply andb_true_iff in Hw as [-> Hw]. by rewrite IH.
Qed.

(** A lazy star stops at the first position where the rest matches. *)
Lemma starLazy_first {R} (pre r : list N) (k : list N -> option R) x :
  (forall i, (i < length pre)%nat -> k (drop i (pre ++ r)) = None) ->
  k r = Some x ->
  starLazy anyChar (pre ++ r) k = Some x.
Proof.
  intros Hpre Hr. induction pre as [|c pre IH].
  - destruct r; cbn; by rewrite Hr.
  - assert (k (c :: pre ++ r) = None) as H0 by (apply (Hpre 0%nat); cbn; lia).
    cbn. rewrite H0.
    apply IH. intros i Hi. apply (Hpre (S i)). cbn. lia.
Qed.

Lemma startsWith_backticks_snoc (u rest : list N) (d : N) :
  d <> 96 ->
  startsWith (lit "```") (u ++ [d]) = false ->
  startsWith (lit "```") ((u ++ [d]) ++ rest) = false.
Proof.
  intros Hd. assert ((96 =? d) = false) as E by (b2p; lia).
  change (lit "```") with [96; 96; 96].
  destruct u as [|x [|y [|z u]]]; cbn; rewrite ?E, ?andb_false_r; done.
Qed.

(** Inside a text without three backticks in a row that ends with
    neither a blank nor a backtick, the fence cannot close. *)
Lemma closes_inside (u rest : list N) (d : N) :
  isWhiteSpace d = false -> d <> 96 ->
  includes (lit "```") (u ++ [d]) = false ->
  closes ((u ++ [d]) ++ rest) = false.
Proof.
  intros Hd Hbt Hinc. unfold closes.
  rewrite trimStart_app by (rewrite trimStart_snoc by done; by destruct (trimStart u)).
  rewrite trimStart_snoc by done.
  apply startsWith_backticks_snoc; [done|].
  apply includes_head.
  destruct (trimStart_split u) as [w [Hu _]].
  rewrite Hu, <- app_assoc in Hinc. by apply includes_app_r in Hinc.
Qed.

Lemma closes_fence (w : list N) :
  forallb isWhiteSpace w = true -> closes (w ++ lit "```") = true.
Proof. intros Hw. unfold closes. by rewrite trimStart_ws. Qed.

(** On blanks, a body [t] and a closing fence, the group captures [t]. *)
Lemma run_body (w1 m w2 : list N) (c d : N) t cap :
  forallb isWhiteSpace w1 = true -> forallb isWhiteSpace w2 = true ->
  t = m ++ [d] -> (exists m', t = c :: m') ->
  isWhiteSpace c = false -> isWhiteSpace d = false -> d <> 96 ->
  includes (lit "```") t = false ->
  run bodyRe (w1 ++ t ++ w2 ++ lit "```") cap finish = Some (Some t).
Proof.
  intros Hw1 Hw2 Ht [m' Hc] Hwc Hwd Hd Hinc. unfold bodyRe. cbn [run].
  apply starGreedy_longest; [done | by rewrite Hc |].
  erewrite starLazy_ext; last first.
  { intros x. apply run_closing. }
  apply starLazy_first.
  - intros i Hi.
    replace (closes (drop i (t ++ w2 ++ lit "```"))) with false; [done|].
    symmetry. rewrite drop_app_le by lia.
    assert (i <= length m)%nat as Hle.
    { rewrite Ht, length_app in Hi. cbn in Hi. lia. }
    rewrite Ht, drop_app_le by done.
    apply closes_inside; [done..|].
    rewrite Ht, <- (take_drop i m), <- app_assoc in Hinc.
    by apply includes_app_r in Hinc.
  - rewrite closes_fence by done. do 2 f_equal.
    rewrite length_app.
    replace (length t + length (w2 ++ lit "```") - length (w2 ++ lit "```"))%nat
      with (length t) by lia.
    by rewrite take_app_length.
Qed.

Lemma run_tag {R} (tag s : list N) cap
  (k : list N -> option (list N) -> option R) :
  isJsonTag tag = true -> run (rlit (lit "json")) (tag ++ s) cap k = k s cap.
Proof.
  intros H%bool_decide_eq_true.
  change (List.map canon (lit "json")) with [74; 83; 79; 78] in H.
  destruct tag as [|t1 [|t2 [|t3 [|t4 [|t5 tag]]]]]; try done.
  cbn [List.map] in H. injection H as H1 H2 H3 H4.
  change (lit "json") with [106; 115; 111; 110]. cbn [rlit run app].
  change (canon 106) with 74. change (canon 115) with 83.
  change (canon 111) with 79. change (canon 110) with 78.
  by rewrite H1, H2, H3, H4, !N.eqb_refl.
Qed.

Lemma run_no_tag {R} (c : N) (s : list N) cap
  (k : list N -> option (list N) -> option R) :
  canon c <> 74 -> run (rlit (lit "json")) (c :: s) cap k = None.
Proof.
  intros H. change (lit "json") with [106; 115; 111; 110]. cbn [rlit run].
  change (canon 106) with 74.
  destruct (N.eqb_spec 74 (canon c)); [congruence | done].
Qed.

Lemma blank_not_j (c : N) : isWhiteSpace c = true -> canon c <> 74.
Proof.
  intros H. unfold canon.
  destruct ((97 <=? c) && (c <=? 122)) eqn:E;
    unfold isWhiteSpace in H; b2p; lia.
Qed.

End FenceFacts.

(** ** C4: the lenient parser on a fenced JSON text *)

Section Fenced.
Variables (j : list N) (v : value).
Hypothesis Hvalid : Json.parse j = Normal v.
Hypothesis Hplain : includes (lit "```") j = false.

(** The trimmed text of a valid JSON text: where it starts and ends. *)
Lemma valid_body :
  exists c m d m' w1 w2,
    j = w1 ++ trim j ++ w2 /\ trim j = c :: m /\ trim j = m' ++ [d]
    /\ forallb isWhiteSpace w1 = true /\ forallb isWhiteSpace w2 = true
    /\ isWhiteSpace c = false /\ isWhiteSpace d = false /\ d <> 96
    /\ canon c <> 74 /\ includes (lit "```") (trim j) = false.
Proof.
  destruct (trim_split j) as (w1 & w2 & Hj & Hw1 & Hw2).
  destruct (trim_ends j) as [E | (c & m & d & Hc & [m' Hd] & Hwc & Hwd)].
  { by apply parse_nonblank in Hvalid. }
  destruct (parse_lex _ _ (parse_trim _ _ Hvalid)) as (ts & Hl & _).
  exists c, m, d, m', w1, w2. repeat split; try done.
  - intros ->. rewrite Hd in Hl. by rewrite lex_backtick_end in Hl.
  - rewrite Hc in Hl. by eapply lex_head_not_j.
  - rewrite Hj in Hplain. apply includes_app_r in Hplain.
    by apply includes_app_l in Hplain.
Qed.

Lemma match_fenced (tag w1 w2 : list N) :
  tag = [] \/ isJsonTag tag = true ->
  forallb isWhiteSpace w1 = true -> forallb isWhiteSpace w2 = true ->
  exec fenceRe (fenced tag w1 j w2) = Some (Some (trim j)).
Proof.
  intros Htag Hw1 Hw2.
  destruct valid_body
    as (c & m & d & m' & u1 & u2 & Hj & Hc & Hd & Hu1 & Hu2 & Hwc & Hwd & Hbt & Hnj & Hinc).
  assert (forall cap, run bodyRe (w1 ++ j ++ w2 ++ lit "```") cap finish
                      = Some (Some (trim j))) as Hbody.
  { intros cap.
    replace (w1 ++ j ++ w2 ++ lit "```")
      with ((w1 ++ u1) ++ trim j ++ (u2 ++ w2) ++ lit "```")
      by (rewrite <- !app_assoc; f_equal;
          rewrite (app_assoc (trim j)), (app_assoc u1); by rewrite <- Hj).
    apply (run_body _ m' _ c d); try done.
    - by rewrite forallb_app, Hw1, Hu1.
    - by rewrite forallb_app, Hu2, Hw2.
    - by exists m. }
  assert (matchHere fenceRe (fenced tag w1 j w2) = Some (Some (trim j))) as Hm.
  { change (run fenceRe (fenced tag w1 j w2) None finish = Some (Some (trim j))).
    unfold fenced.
    change fenceRe
      with (RSeq (rlit (lit "```")) (RSeq (ROpt (rlit (lit "json"))) bodyRe)).
    cbn [run]. rewrite run_backticks.
    change (lit "```" ++ tag ++ w1 ++ j ++ w2 ++ lit "```")
      with (96 :: 96 :: 96 :: tag ++ w1 ++ j ++ w2 ++ lit "```").
    change (startsWith (lit "```") (96 :: 96 :: 96 :: tag ++ w1 ++ j ++ w2 ++ lit "```"))
      with true.
    cbn [drop]. rewrite drop_0.
    destruct Htag as [-> | Htag].
    - cbn [app].
      assert (run (rlit (lit "json")) (w1 ++ j ++ w2 ++ lit "```") None
                (fun s1 cap1 => run bodyRe s1 cap1 finish) = None) as ->.
      { destruct w1 as [|x w1].
        - cbn [app]. rewrite Hj, Hc.
          destruct u1 as [|y u1]; cbn [app].
          + by apply run_no_tag.
          + cbn in Hu1. apply andb_true_iff in Hu1 as [Hy _].
            by apply run_no_tag, blank_not_j.
        - cbn in Hw1. apply andb_true_iff in Hw1 as [Hx _].
          cbn [app]. by apply run_no_tag, blank_not_j. }
      apply Hbody.
    - rewrite run_tag by done. by rewrite Hbody. }
  destruct (fenced tag w1 j w2); cbn [exec]; by rewrite Hm.
Qed.

End Fenced.

(** C4 (amended): for every valid JSON text [j] that holds no three
    backticks in a row, [safeParseJson] on [j] wrapped in a fence, with or
    without the [json] tag and with any blanks inside the fence, returns
    what it returns on [j] itself, the parsed value. *)
Theorem fenced_roundtrip (j : list N) (v : value) (tag w1 w2 : list N) :
  Json.parse j = Normal v ->
  includes (lit "```") j = false ->
  tag = [] \/ isJsonTag tag = true ->
  forallb isWhiteSpace w1 = true -> forallb isWhiteSpace w2 = true ->
  safeParseJson (fenced tag w1 j w2) = safeParseJson j
  /\ safeParseJson j = Normal v.
Proof.
  intros Hv Hp Htag Hw1 Hw2.
  assert (safeParseJson j = Normal v) as Hj.
  { unfold safeParseJson. by rewrite Hv. }
  split; [|done]. rewrite Hj. unfold safeParseJson.
  change (Json.parse (fenced tag w1 j w2)) with (@Throw value SyntaxError).
  cbn [tryCatch]. rewrite (match_fenced j v Hv Hp) by done.
  cbn [parseGroup]. by rewrite (parse_trim _ _ Hv).
Qed.

Lemma fenced_roundtrip_witness :
  let j := litq "{'Customer Name':'Jane Doe','Loan Amount':'5000'}" in
  let v := VObj [(lit "Customer Name", VStr (lit "Jane Doe"));
                 (lit "Loan Amount", VStr (lit "5000"))] in
  safeParseJson (fenced (lit "json") [10] j [10]) = safeParseJson j
  /\ safeParseJson j = Normal v.
Proof.
  apply fenced_roundtrip.
  - vm_compute. reflexivity.
  - vm_compute. reflexivity.
  - right. vm_compute. reflexivity.
  - reflexivity.
  - reflexivity.
Defined.

(** C4 as stated fails: a valid JSON string that holds three backticks is
    cut at them by the lazy capture, and the fenced text falls back to the
    raw object. *)
Lemma fenced_roundtrip_counterexample :
  Json.parse (litq "'```'") = Normal (VStr (lit "```"))
  /\ safeParseJson (fenced (lit "json") [10] (litq "'```'") [10])
     <> safeParseJson (litq "'```'").
Proof.
  split; [vm_compute; reflexivity|]. vm_compute. discriminate.
Qed.

(** C2 (amended): for every reply, [safeParseJson] returns normally, and
    its value is the parsed reply, or the parsed body of the fence found in
    the reply, or the fallback object [{ raw: reply.trim() }]; the fallback
    is a non-null object, while a parsed reply or body is whatever JSON value
    it denotes.  [extractFields] returns that value when the key is set and
    the model replies with the string. *)
Theorem safeParseJson_result (text : list N) :
  exists v,
    safeParseJson text = Normal v
    /\ (Json.parse text = Normal v
        \/ ((exists e, Json.parse text = Throw e)
            /\ exists g, exec fenceRe text = Some g /\ parseGroup g = Normal v)
        \/ ((exists e, Json.parse text = Throw e)
            /\ (exec fenceRe text = None
                \/ exists g e, exec fenceRe text = Some g /\ parseGroup g = Throw e)
            /\ v = rawObject text /\ nonNullObject (Normal v)))
    /\ forall ext doc st t,
         keySet ext = true ->
         chatInvoke ext (extractPrompt doc)
           = Normal (Some (AIMessage (Some (CString text)) t)) ->
         fst (extractFields ext doc st) = Normal v.
Proof.
  assert (forall v, safeParseJson text = Normal v ->
            forall ext doc st t,
              keySet ext = true ->
              chatInvoke ext (extractPrompt doc)
                = Normal (Some (AIMessage (Some (CString text)) t)) ->
              fst (extractFields ext doc st) = Normal v) as Hext.
  { intros v Hv ext doc st t Hk Hc.
    unfold extractFields, getModel, bind, call, lift, ret.
    rewrite Hk, Hc. cbn. exact Hv. }
  unfold safeParseJson in *.
  destruct (Json.parse text) as [v|e] eqn:Hp; cbn [tryCatch] in *.
  - exists v. split; [done|]. split; [by left | by apply Hext].
  - destruct (exec fenceRe text) as [g|] eqn:Hm.
    + destruct (parseGroup g) as [v|e'] eqn:Hg; cbn [tryCatch] in *.
      * exists v. split; [done|]. split; [|by apply Hext].
        right; left. split; [by exists e | by exists g].
      * exists (rawObject text). split; [done|]. split; [|by apply Hext].
        right; right. split; [by exists e|]. split; [right; by exists g, e'|].
        split; [done|]. by exists (rawObject text).
    + exists (rawObject text). split; [done|]. split; [|by apply Hext].
      right; right. split; [by exists e|]. split; [by left|].
      split; [done|]. by exists (rawObject text).
Qed.

Lemma safeParseJson_result_witness :
  exists v,
    safeParseJson (lit "not json") = Normal v
    /\ fst (extractFields (replyWith (lit "not json")) (lit "doc") initialState)
       = Normal v.
Proof.
  destruct (safeParseJson_result (lit "not json")) as (v & Hv & _ & Hext).
  exists v. split; [exact Hv|].
  apply (Hext (replyWith (lit "not json")) (lit "doc") initialState None);
    reflexivity.
Defined.

(** C2 as stated fails: when the model replies [null], which is valid
    JSON, [extractFields] returns null, not an object. *)
Lemma extractFields_null_counterexample :
  fst (extractFields (replyWith (lit "null")) (lit "doc") initialState)
  = Normal VNull
  /\ ~ nonNullObject
         (fst (extractFields (replyWith (lit "null")) (lit "doc") initialState)).
Proof.
  assert (fst (extractFields (replyWith (lit "null")) (lit "doc") initialState)
          = Normal VNull) as E by (vm_compute; reflexivity).
  split; [exact E|]. rewrite E. intros (v & [= <-] & Ho & _). discriminate.
Qed.

(** ** The handlers and the process state *)

Ltac munfold :=
  unfold postUpload, postAsk, postHistoryClear, extractTextFromFile,
    pdfBranch, imageBranch, textBranch, nativePdfText, visionText,
    extractFields, answerQuestion, getModel, getGenAi,
    setLastDocumentText, setLastExtracted, setHistory, getState,
    bind, call, ret, lift, throw, try_ in *.

Section Frames.

Lemma withLog_nil st : withLog st [] = st.
Proof. destruct st. unfold withLog. cbn. by rewrite app_nil_r. Qed.

Lemma extractFields_run ext text st :
  extractFields ext text st =
  if keySet ext then
    (match chatInvoke ext (extractPrompt text) with
     | Normal ai => safeParseJson (pickTextFromAiMessage ai)
     | Throw e => Throw e
     end, withLog st [EvChatInvoke (extractPrompt text)])
  else (Throw missingKey, st).
Proof.
  munfold. destruct (keySet ext); [|done].
  by destruct (chatInvoke ext (extractPrompt text)).
Qed.

Lemma answerQuestion_run ext doc question hist st :
  answerQuestion ext doc question hist st =
  if keySet ext then
    (match chatInvoke ext (answerPrompt doc question hist) with
     | Normal ai => Normal (trim (pickTextFromAiMessage ai))
     | Throw e => Throw e
     end, withLog st [EvChatInvoke (answerPrompt doc question hist)])
  else (Throw missingKey, st).
Proof.
  munfold. destruct (keySet ext); [|done].
  by destruct (chatInvoke ext (answerPrompt doc question hist)).
Qed.

(** Text extraction only adds to the log. *)
Lemma extractText_frame ext p m st :
  sameData st (snd (extractTextFromFile ext p m st)).
Proof.
  munfold. unfold sameData. repeat case_match; simplify_eq; done.
Qed.

Lemma extractFields_fst ext text st st2 :
  fst (extractFields ext text st) = fst (extractFields ext text st2).
Proof. rewrite !extractFields_run. by destruct (keySet ext). Qed.

Lemma extractFields_frame ext text st :
  sameData st (snd (extractFields ext text st)).
Proof. rewrite extractFields_run. by destruct (keySet ext). Qed.

End Frames.

(** C1: when field extraction throws after text extraction succeeded, the
    upload handler answers 500 and leaves the fields and the sessions as
    they were, but the document text is already the new one: the upload is
    not atomic. *)
Theorem upload_failure_partial_write ext req st f text e :
  file req = Some f ->
  fst (extractTextFromFile ext (path f) (Some (mimetype f)) st) = Normal text ->
  trim text <> [] ->
  fst (extractFields ext text st) = Throw e ->
  exists st',
    postUpload ext req st
      = (Normal (errorJson 500 (lit "Failed to process upload")), st')
    /\ lastDocumentText st' = text
    /\ lastExtracted st' = lastExtracted st
    /\ sessions st' = sessions st.
Proof.
  intros Hf Ht Hne He.
  pose proof (extractText_frame ext (path f) (Some (mimetype f)) st) as Hfr.
  unfold postUpload, try_, bind. rewrite Hf.
  destruct (extractTextFromFile ext (path f) (Some (mimetype f)) st)
    as [r st1] eqn:E1.
  cbn [fst snd] in *. subst r.
  assert (truthy text = true) as ->.
  { destruct text; [|done]. by destruct Hne. }
  assert (truthy (trim text) = true) as ->.
  { by destruct (trim text). }
  cbn [negb orb]. unfold setLastDocumentText at 1.
  match goal with
  | |- context [extractFields ext text ?s] =>
      pose proof (extractFields_frame ext text s) as Hfr2;
      pose proof (extractFields_fst ext text s st) as Hfst;
      destruct (extractFields ext text s) as [r2 st2] eqn:E2
  end.
  cbn [fst snd] in *. rewrite He in Hfst. subst r2.
  unfold call, ret. eexists. split; [reflexivity|].
  destruct Hfr as (H1 & H2 & H3), Hfr2 as (H4 & H5 & H6). cbn in *.
  repeat split; congruence.
Qed.

Lemma upload_failure_partial_write_witness :
  exists st',
    postUpload (chatFails (lit "Name: Jane Doe, Loan: 5000")) textUpload earlierState
      = (Normal (errorJson 500 (lit "Failed to process upload")), st')
    /\ lastDocumentText st' = lit "Name: Jane Doe, Loan: 5000"
    /\ lastExtracted st' = lastExtracted earlierState
    /\ sessions st' = sessions earlierState.
Proof.
  apply (upload_failure_partial_write _ _ _
           (UploadedFile (lit "uploads/3f9a") (lit "text/plain"))
           (lit "Name: Jane Doe, Loan: 5000")
           (Error (lit "503 Service Unavailable"))).
  - reflexivity.
  - reflexivity.
  - vm_compute. discriminate.
  - reflexivity.
Defined.

(** When text extraction itself throws, nothing is written: the defect is
    confined to the stage after it. *)
Lemma upload_text_failure_frame ext req st f e :
  file req = Some f ->
  fst (extractTextFromFile ext (path f) (Some (mimetype f)) st) = Throw e ->
  exists st',
    postUpload ext req st
      = (Normal (errorJson 500 (lit "Failed to process upload")), st')
    /\ sameData st st'.
Proof.
  intros Hf Ht.
  pose proof (extractText_frame ext (path f) (Some (mimetype f)) st) as Hfr.
  unfold postUpload, try_, bind. rewrite Hf.
  destruct (extractTextFromFile ext (path f) (Some (mimetype f)) st)
    as [r st1] eqn:E1.
  cbn [fst snd] in *. subst r. unfold call, ret.
  eexists. split; [reflexivity|]. exact Hfr.
Qed.

(** C1 at the failing upload: the response is 500 and the document text
    visible afterwards is not the one from before the request. *)
Lemma upload_not_atomic :
  fst (postUpload (chatFails (lit "Name: Jane Doe, Loan: 5000")) textUpload earlierState)
    = Normal (errorJson 500 (lit "Failed to process upload"))
  /\ lastDocumentText
       (snd (postUpload (chatFails (lit "Name: Jane Doe, Loan: 5000")) textUpload earlierState))
     <> lastDocumentText earlierState.
Proof.
  split; [reflexivity|]. vm_compute. discriminate.
Qed.

(** C8: POST /api/history/clear answers [{ ok: true }], empties the history
    of the requesting session and changes nothing else: the document text,
    the extracted fields, the other sessions and the log of calls are as
    before. *)
Theorem clear_history_frame (sid : N) (st : state) :
  exists st',
    postHistoryClear sid st = (Normal (json (VObj [(lit "ok", VBool true)])), st')
    /\ historyOf sid st' = []
    /\ lastDocumentText st' = lastDocumentText st
    /\ lastExtracted st' = lastExtracted st
    /\ log st' = log st
    /\ forall other, other <> sid -> sessions st' !! other = sessions st !! other.
Proof.
  munfold. eexists. split; [reflexivity|]. cbn.
  repeat split.
  - unfold historyOf, sessionOf. cbn. by rewrite lookup_insert_eq.
  - intros other Hne. by rewrite lookup_insert_ne.
Qed.

Lemma clear_history_frame_witness :
  exists st',
    postHistoryClear 7 earlierState
      = (Normal (json (VObj [(lit "ok", VBool true)])), st')
    /\ historyOf 7 st' = []
    /\ lastDocumentText st' = lastDocumentText earlierState
    /\ lastExtracted st' = lastExtracted earlierState
    /\ log st' = log earlierState
    /\ sessions st' !! 8%N = sessions earlierState !! 8%N.
Proof.
  destruct (clear_history_frame 7 earlierState)
    as (st' & Hrun & Hh & Hd & He & Hl & Ho).
  exists st'. repeat split; try done. apply Ho. discriminate.
Defined.

Section Ask.

Lemma questionOf_member ms question :
  lookupLast (lit "question") ms = Some (VStr question) ->
  questionOf (Some (VObj ms)) = VStr question.
Proof.
  intros H. unfold questionOf. cbn [truthyValue getProp]. rewrite H.
  cbn [truthyValue]. by destruct question.
Qed.

Lemma postAsk_string ext req st question :
  questionOf (askBody req) = VStr question ->
  trim question = [] ->
  postAsk ext req st = (Normal (errorJson 400 (lit "Missing question")), st).
Proof.
  intros Hq Ht. unfold postAsk, try_. rewrite Hq, Ht. reflexivity.
Qed.

Lemma postAsk_no_document ext req st question :
  questionOf (askBody req) = VStr question ->
  trim question <> [] ->
  lastDocumentText st = [] ->
  postAsk ext req st
  = (Normal (errorJson 400 (lit "No document uploaded yet")), st).
Proof.
  intros Hq Ht Hd. unfold postAsk, try_. rewrite Hq.
  destruct (trim question) eqn:E; [done|].
  unfold bind, getState. cbn. rewrite Hd. reflexivity.
Qed.

(** With no document, no request reaches the chat model or changes the
    document, the fields or the sessions. *)
Lemma postAsk_no_document_frame ext req st :
  lastDocumentText st = [] ->
  exists r st',
    postAsk ext req st = (Normal r, st')
    /\ (status r = 400%nat \/ status r = 500%nat)
    /\ sameData st st' /\ noChatCall st st'.
Proof.
  intros Hd. unfold postAsk, try_.
  destruct (questionOf (askBody req)) as [|b|n|question|items|ms] eqn:Hq;
    try (munfold; cbn; eexists _, _; split; [reflexivity|];
         split; [by right|]; split; [done|];
         eexists; split; [reflexivity|];
         intros p Hin; apply list_elem_of_singleton in Hin; discriminate).
  destruct (truthy (trim question)); cbn [negb].
  - munfold. cbn. rewrite Hd. cbn. eexists _, _. split; [reflexivity|].
    split; [by left|]. split; [done|]. exists []. rewrite app_nil_r.
    split; [done|]. intros p Hin. by apply not_elem_of_nil in Hin.
  - munfold. eexists _, _. split; [reflexivity|].
    split; [by left|]. split; [done|]. exists []. rewrite app_nil_r.
    split; [done|]. intros p Hin. by apply not_elem_of_nil in Hin.
Qed.

End Ask.

(** C7 (amended): when the question of the request is absent, falsy or a
    string, POST /api/ask answers 400 and leaves the whole state, log of
    calls included, as it was (so the chat model is not invoked and no
    history is written) whenever the trimmed question is empty or no
    document has been uploaded; and with no document uploaded, whatever the
    request, the chat model is not invoked and the document, the fields and
    the sessions are unchanged. *)
Theorem ask_rejected ext req st question :
  questionOf (askBody req) = VStr question ->
  trim question = [] \/ lastDocumentText st = [] ->
  (exists msg, postAsk ext req st = (Normal (errorJson 400 msg), st))
  /\ (lastDocumentText st = [] ->
      forall req', exists r st',
        postAsk ext req' st = (Normal r, st')
        /\ (status r = 400%nat \/ status r = 500%nat)
        /\ sameData st st' /\ noChatCall st st').
Proof.
  intros Hq Hcase. split.
  - destruct (trim question) eqn:Ht.
    + eexists. by eapply postAsk_string.
    + destruct Hcase as [|Hd]; [done|].
      eexists. eapply postAsk_no_document; [done| by rewrite Ht | done].
  - intros Hd req'. by apply postAsk_no_document_frame.
Qed.

Lemma ask_rejected_witness :
  (exists msg,
     postAsk (replyWith (lit "42"))
       (AskRequest (Some (VObj [(lit "question", VStr (lit "What is the tenure?"))])) 7)
       initialState
     = (Normal (errorJson 400 msg), initialState))
  /\ (lastDocumentText initialState = [] ->
      forall req', exists r st',
        postAsk (replyWith (lit "42")) req' initialState = (Normal r, st')
        /\ (status r = 400%nat \/ status r = 500%nat)
        /\ sameData initialState st' /\ noChatCall initialState st').
Proof.
  apply (ask_rejected _ _ _ (lit "What is the tenure?")).
  - reflexivity.
  - right. reflexivity.
Defined.

(** C7 as stated fails: before any upload, the request body
    [{"question": 5}] is answered with 500, because [question.trim] is not
    a function on a number. *)
Lemma ask_number_counterexample :
  Json.parse (litq "{'question': 5}") = Normal (VObj [(lit "question", VNum (lit "5"))])
  /\ fst (postAsk (replyWith (lit "42"))
            (AskRequest (Some (VObj [(lit "question", VNum (lit "5"))])) 7)
            initialState)
     = Normal (errorJson 500 (lit "Failed to answer question"))
  /\ ~ exists msg st',
         postAsk (replyWith (lit "42"))
           (AskRequest (Some (VObj [(lit "question", VNum (lit "5"))])) 7)
           initialState
         = (Normal (errorJson 400 msg), st').
Proof.
  split; [vm_compute; reflexivity|]. split; [reflexivity|].
  intros (msg & st' & H). apply (f_equal fst) in H. cbn in H. discriminate.
Qed.

(** A number that is zero as a double is falsy, whatever its digits: the
    body [{"question": 1e-400}] is answered as a missing question. *)
Example ask_underflow_question :
  Json.parse (litq "{'question': 1e-400}")
  = Normal (VObj [(lit "question", VNum (lit "1e-400"))])
  /\ truthyValue (VNum (lit "1e-400")) = false
  /\ truthyValue (VNum (lit "5e-324")) = true
  /\ truthyValue (VNum (lit "2.4e-324")) = false
  /\ truthyValue (VNum (lit "2.5e-324")) = true
  /\ truthyValue (VNum (lit "-0.0e5")) = false
  /\ postAsk (replyWith (lit "42"))
       (AskRequest (Some (VObj [(lit "question", VNum (lit "1e-400"))])) 7)
       earlierState
     = (Normal (errorJson 400 (lit "Missing question")), earlierState).
Proof.
  split; [vm_compute; reflexivity|].
  repeat (split; [vm_compute; reflexivity|]).
  vm_compute. reflexivity.
Qed.

(** C9: a question that is a string of blanks only (spaces, tabs, line
    breaks) is answered with 400 "Missing question", as a missing body and a
    missing question are, in every state; the state, log of calls included,
    is unchanged, so the question does not reach the chat model. *)
Theorem ask_blank_question ext sid st ms question :
  lookupLast (lit "question") ms = Some (VStr question) ->
  forallb isWhiteSpace question = true ->
  postAsk ext (AskRequest (Some (VObj ms)) sid) st
    = (Normal (errorJson 400 (lit "Missing question")), st)
  /\ postAsk ext (AskRequest (Some (VObj [])) sid) st
    = (Normal (errorJson 400 (lit "Missing question")), st)
  /\ postAsk ext (AskRequest None sid) st
    = (Normal (errorJson 400 (lit "Missing question")), st).
Proof.
  intros Hq Hws. split; [|split].
  - apply (postAsk_string _ _ _ question).
    + by apply questionOf_member.
    + by apply trim_all_ws.
  - by apply (postAsk_string _ _ _ []).
  - by apply (postAsk_string _ _ _ []).
Qed.

Lemma ask_blank_question_witness :
  postAsk (replyWith (lit "42"))
    (AskRequest (Some (VObj [(lit "question", VStr [32; 9; 10; 32])])) 7)
    earlierState
  = (Normal (errorJson 400 (lit "Missing question")), earlierState)
  /\ postAsk (replyWith (lit "42")) (AskRequest (Some (VObj [])) 7) earlierState
    = (Normal (errorJson 400 (lit "Missing question")), earlierState)
  /\ postAsk (replyWith (lit "42")) (AskRequest None 7) earlierState
    = (Normal (errorJson 400 (lit "Missing question")), earlierState).
Proof.
  apply (ask_blank_question _ _ _ [(lit "question", VStr [32; 9; 10; 32])]
           [32; 9; 10; 32]); reflexivity.
Defined.

(** ** Text extraction *)

Section TextExtraction.

Lemma orElse_nil (s : list N) : orElse s [] = s.
Proof. by destruct s. Qed.

Lemma resultText_usable (r : genResult) :
  ~ textThrows r ->
  resultText r = Normal (trim (default [] (usableText r))).
Proof.
  intros Hno. unfold resultText, usableText.
  destruct (genResp r) as [[t c]|] eqn:E; [|done].
  destruct t as [[reply|e]|].
  - destruct reply as [|x reply]; [|done]. cbn.
    destruct c as [[|y c]|]; done.
  - destruct Hno. by exists e, c.
  - destruct c as [[|y c]|]; done.
Qed.

Lemma elem_of_log3 (e1 e2 e3 : event) i m b :
  EvGenerateContent i m b ∈ [e1; e2; e3] ->
  e1 = EvGenerateContent i m b \/ e2 = EvGenerateContent i m b
  \/ e3 = EvGenerateContent i m b.
Proof.
  rewrite !elem_of_cons. intros [->|[->|[->|H]]]; auto.
  by apply not_elem_of_nil in H.
Qed.

(** The native parse never throws and never calls the vision model. *)
Lemma nativePdfText_run ext buffer st :
  exists evs,
    nativePdfText ext buffer st
    = (Normal (match nativeParsed ext buffer with
               | Some t => if truthy t && (50 <? length t)%nat then Some t else None
               | None => None
               end), withLog st evs)
    /\ forall i m b, EvGenerateContent i m b ∉ evs.
Proof.
  unfold nativePdfText, nativeParsed, try_, bind, call, ret, withLog.
  destruct (loadPdfParse ext) as [[]|e]; cbn.
  - destruct (pdfParse ext buffer) as [data|e]; cbn.
    + rewrite orElse_nil.
      exists [EvLoadPdfParse; EvPdfParse buffer]. rewrite <- app_assoc.
      split; [by destruct (truthy _ && (50 <? _)%nat)|].
      intros i m b. rewrite !elem_of_cons.
      intros [|[|H]]; try discriminate. by apply not_elem_of_nil in H.
    + exists [EvLoadPdfParse; EvPdfParse buffer]. rewrite <- app_assoc.
      split; [done|].
      intros i m b. rewrite !elem_of_cons.
      intros [|[|H]]; try discriminate. by apply not_elem_of_nil in H.
  - exists [EvLoadPdfParse]. split; [done|].
    intros i m b. rewrite !elem_of_cons.
    intros [|H]; try discriminate. by apply not_elem_of_nil in H.
Qed.

Lemma pdfBranch_run ext p st buffer :
  readFile ext p = Normal buffer ->
  exists evs,
    (forall i m b, EvGenerateContent i m b ∉ evs)
    /\ pdfBranch ext p st
       = match nativeParsed ext buffer with
         | Some t =>
             if truthy t && (50 <? length t)%nat
             then (Normal t, withLog st (EvReadFile p :: evs))
             else (run! getGenAi ext in
                   visionText ext pdfInstruction (lit "application/pdf") buffer)
                    (withLog st (EvReadFile p :: evs))
         | None =>
             (run! getGenAi ext in
              visionText ext pdfInstruction (lit "application/pdf") buffer)
               (withLog st (EvReadFile p :: evs))
         end.
Proof.
  intros Hread.
  destruct (nativePdfText_run ext buffer (withLog st [EvReadFile p]))
    as (evs & Hrun & Hevs).
  exists evs. split; [done|].
  unfold pdfBranch. unfold bind at 1. unfold call at 1. rewrite Hread.
  change {| lastDocumentText := lastDocumentText st;
            lastExtracted := lastExtracted st;
            sessions := sessions st;
            log := log st ++ [EvReadFile p] |}
    with (withLog st [EvReadFile p]).
  unfold bind at 1. rewrite Hrun.
  replace (withLog (withLog st [EvReadFile p]) evs)
    with (withLog st (EvReadFile p :: evs))
    by (unfold withLog; cbn; by rewrite <- app_assoc).
  destruct (nativeParsed ext buffer) as [t|]; [|done].
  by destruct (truthy t && (50 <? length t)%nat).
Qed.

(** The OCR fallback once the native parse is not accepted: the check of
    the key, then the call of the vision model and the text of its reply. *)
Lemma ocrFallback_run ext buffer st :
  (run! getGenAi ext in
   visionText ext pdfInstruction (lit "application/pdf") buffer) st
  = if keySet ext
    then (match generateContent ext pdfInstruction (lit "application/pdf") buffer with
          | Normal r => resultText r
          | Throw e => Throw e
          end,
          withLog st [EvGenerateContent pdfInstruction (lit "application/pdf") buffer])
    else (Throw missingKey, st).
Proof.
  unfold getGenAi, visionText, bind, call, ret, lift, throw, withLog.
  destruct (keySet ext); [|done].
  by destruct (generateContent ext pdfInstruction (lit "application/pdf") buffer).
Qed.

End TextExtraction.

(** C5 (amended): for a declared PDF media type whose file can be read.
    (1) The native text, trimmed, is returned, with no call of the vision
    model, when it is non-empty and longer than 50 code units.  When the
    native parse throws or its trimmed text is empty or has at most 50 code
    units: (2) without the API key the configuration error is thrown and
    the vision model is not called; (3) with the key the vision model is
    called on the bytes of the file and the outcome is that of the call: a
    throw of the call propagates, a reply gives its text.  (4) The text of
    a reply is its usable text trimmed, the empty string when it holds
    nothing usable, (5) unless reading the text of the reply throws, which
    propagates. *)
Theorem pdf_native_or_ocr ext p m st buffer :
  includes (lit "pdf") (toLowerCase (default [] m)) = true ->
  readFile ext p = Normal buffer ->
  let notAccepted :=
    nativeParsed ext buffer = None
    \/ exists t, nativeParsed ext buffer = Some t
                 /\ (t = [] \/ (length t <= 50)%nat) in
  (forall t, nativeParsed ext buffer = Some t ->
             t <> [] /\ (50 < length t)%nat ->
             exists st', extractTextFromFile ext p m st = (Normal t, st')
                         /\ noVisionCall st st')
  /\ (notAccepted -> keySet ext = false ->
      exists st', extractTextFromFile ext p m st = (Throw missingKey, st')
                  /\ noVisionCall st st')
  /\ (notAccepted -> keySet ext = true ->
      exists st',
        extractTextFromFile ext p m st
        = (match generateContent ext pdfInstruction (lit "application/pdf") buffer with
           | Normal r => resultText r
           | Throw e => Throw e
           end, st')
        /\ visionCalled pdfInstruction (lit "application/pdf") buffer st st')
  /\ (forall r, ~ textThrows r ->
                resultText r = Normal (trim (default [] (usableText r))))
  /\ (forall r e c, genResp r = Some (GenResponse (Some (Throw e)) c) ->
                    resultText r = Throw e).
Proof.
  intros Hpdf Hread notAccepted. unfold extractTextFromFile. rewrite Hpdf.
  destruct (pdfBranch_run ext p st buffer Hread) as (evs & Hevs & ->).
  assert (noVisionCall st (withLog st (EvReadFile p :: evs))) as Hquiet.
  { exists (EvReadFile p :: evs). split; [done|].
    intros i m0 b [|Hin]%elem_of_cons; [discriminate|]. by eapply Hevs. }
  assert (notAccepted ->
          match nativeParsed ext buffer with
          | Some t =>
              if truthy t && (50 <? length t)%nat
              then (Normal t, withLog st (EvReadFile p :: evs))
              else (run! getGenAi ext in
                    visionText ext pdfInstruction (lit "application/pdf") buffer)
                     (withLog st (EvReadFile p :: evs))
          | None =>
              (run! getGenAi ext in
               visionText ext pdfInstruction (lit "application/pdf") buffer)
                (withLog st (EvReadFile p :: evs))
          end
          = (run! getGenAi ext in
             visionText ext pdfInstruction (lit "application/pdf") buffer)
              (withLog st (EvReadFile p :: evs))) as Hfall.
  { intros [-> | (t & -> & [-> | Hlen])]; [done..|].
    apply Nat.ltb_ge in Hlen. by rewrite Hlen, andb_false_r. }
  split; [|split; [|split; [|split]]].
  - intros t Ht [Hne Hlen]. rewrite Ht.
    assert (truthy t = true) as -> by (by destruct t).
    assert ((50 <? length t)%nat = true) as -> by (by apply Nat.ltb_lt).
    cbn [andb]. eexists. split; [reflexivity | exact Hquiet].
  - intros Hnot Hkey. rewrite (Hfall Hnot), ocrFallback_run, Hkey.
    eexists. split; [reflexivity | exact Hquiet].
  - intros Hnot Hkey. rewrite (Hfall Hnot), ocrFallback_run, Hkey.
    eexists. split; [reflexivity|].
    exists (EvReadFile p :: evs
            ++ [EvGenerateContent pdfInstruction (lit "application/pdf") buffer]).
    cbn. split; [by rewrite <- !app_assoc|].
    apply elem_of_cons. right. apply elem_of_app. right.
    by apply list_elem_of_singleton.
  - apply resultText_usable.
  - intros r e c Hr. unfold resultText. by rewrite Hr.
Qed.

Lemma pdf_native_or_ocr_witness :
  (exists st',
     extractTextFromFile (nativePdf (lit "  " ++ agreementText ++ [10]))
       (lit "uploads/3f9a") (Some (lit "application/pdf")) initialState
     = (Normal agreementText, st')
     /\ noVisionCall initialState st')
  /\ (exists st',
        extractTextFromFile noKey (lit "uploads/3f9a")
          (Some (lit "application/pdf")) initialState
        = (Throw missingKey, st')
        /\ noVisionCall initialState st')
  /\ (exists st',
        extractTextFromFile ocrEcho (lit "uploads/3f9a")
          (Some (lit "application/pdf")) initialState
        = (Normal pdfInstruction, st')
        /\ visionCalled pdfInstruction (lit "application/pdf") (lit "%PDF-1.4")
             initialState st').
Proof.
  split; [|split].
  - apply (pdf_native_or_ocr (nativePdf (lit "  " ++ agreementText ++ [10]))
             (lit "uploads/3f9a") (Some (lit "application/pdf")) initialState
             (lit "%PDF-1.4")).
    + vm_compute. reflexivity.
    + reflexivity.
    + vm_compute. reflexivity.
    + split; [vm_compute; discriminate | vm_compute; lia].
  - destruct (pdf_native_or_ocr noKey (lit "uploads/3f9a")
                (Some (lit "application/pdf")) initialState (lit "%PDF-1.4"))
      as (_ & Hthrow & _); [vm_compute; reflexivity | reflexivity |].
    exact (Hthrow (or_intror (ex_intro _ [] (conj eq_refl (or_introl eq_refl))))
             eq_refl).
  - destruct (pdf_native_or_ocr ocrEcho (lit "uploads/3f9a")
                (Some (lit "application/pdf")) initialState (lit "%PDF-1.4"))
      as (_ & _ & Hocr & _); [vm_compute; reflexivity | reflexivity |].
    destruct (Hocr (or_intror (ex_intro _ [] (conj eq_refl (or_introl eq_refl))))
                eq_refl) as (st' & Hrun & Hcall).
    exists st'. split; [|exact Hcall].
    rewrite Hrun. f_equal.
Defined.

(** C5 as stated fails: a scanned PDF (the native parse finds no text)
    when GEMINI_API_KEY is not set.  The claim has the vision model called
    and its reply, or the empty string, returned; the code throws the
    configuration error before any call of the vision model, and returns
    nothing. *)
Lemma pdf_fallback_counterexample :
  includes (lit "pdf") (toLowerCase (lit "application/pdf")) = true
  /\ nativeParsed noKey (lit "%PDF-1.4") = Some []
  /\ extractTextFromFile noKey (lit "uploads/3f9a") (Some (lit "application/pdf"))
       initialState
     = (Throw missingKey,
        withLog initialState
          [EvReadFile (lit "uploads/3f9a"); EvLoadPdfParse; EvPdfParse (lit "%PDF-1.4")])
  /\ ~ exists reply st',
         extractTextFromFile noKey (lit "uploads/3f9a") (Some (lit "application/pdf"))
           initialState
         = (Normal reply, st').
Proof.
  split; [vm_compute; reflexivity|]. split; [reflexivity|].
  split; [reflexivity|].
  intros (reply & st' & H). apply (f_equal fst) in H. cbn in H. discriminate.
Qed.

(** C6: for every declared media type that is neither a PDF nor an image
    type, a missing one included, [extractTextFromFile] reads the file as
    UTF-8 text and returns it, or returns the empty string when the read
    throws; it never throws. *)
Theorem text_branch_total ext p m st :
  includes (lit "pdf") (toLowerCase (default [] m)) = false ->
  startsWith (lit "image/") (toLowerCase (default [] m)) = false ->
  extractTextFromFile ext p m st
  = (Normal (match readFileUtf8 ext p with
             | Normal text => text
             | Throw _ => []
             end), withLog st [EvReadFileUtf8 p])
  /\ forall e, fst (extractTextFromFile ext p m st) <> Throw e.
Proof.
  intros Hpdf Himg.
  assert (extractTextFromFile ext p m st
          = (Normal (match readFileUtf8 ext p with
                     | Normal text => text
                     | Throw _ => []
                     end), withLog st [EvReadFileUtf8 p])) as E.
  { unfold extractTextFromFile. rewrite Hpdf, Himg.
    unfold textBranch, try_, call, ret, withLog.
    by destruct (readFileUtf8 ext p). }
  split; [exact E|]. intros e. by rewrite E.
Qed.

Lemma text_branch_total_witness :
  (extractTextFromFile (chatFails (lit "Name: Jane Doe")) (lit "uploads/3f9a")
     (Some (lit "text/plain")) initialState
   = (Normal (lit "Name: Jane Doe"),
      withLog initialState [EvReadFileUtf8 (lit "uploads/3f9a")])
   /\ forall e,
        fst (extractTextFromFile (chatFails (lit "Name: Jane Doe"))
               (lit "uploads/3f9a") (Some (lit "text/plain")) initialState)
        <> Throw e)
  /\ (extractTextFromFile (replyWith []) (lit "uploads/3f9a") None initialState
      = (Normal [], withLog initialState [EvReadFileUtf8 (lit "uploads/3f9a")])
      /\ forall e,
           fst (extractTextFromFile (replyWith []) (lit "uploads/3f9a") None
                  initialState)
           <> Throw e).
Proof.
  split.
  - apply (text_branch_total (chatFails (lit "Name: Jane Doe"))); reflexivity.
  - apply (text_branch_total (replyWith [])); reflexivity.
Defined.

(** C10 (amended): [extractTextFromFile] dispatches on the lower-cased
    declared media type, the tests taken in order: a type that contains
    "pdf" anywhere takes the PDF branch; a type that does not contain "pdf"
    and starts with "image/" takes the image branch; every other type, a
    missing one included, takes the UTF-8 text branch. *)
Theorem media_type_dispatch ext p m st :
  let lower := toLowerCase (default [] m) in
  (includes (lit "pdf") lower = true ->
   extractTextFromFile ext p m st = pdfBranch ext p st)
  /\ (includes (lit "pdf") lower = false ->
      startsWith (lit "image/") lower = true ->
      extractTextFromFile ext p m st = imageBranch ext p (default [] m) st)
  /\ (includes (lit "pdf") lower = false ->
      startsWith (lit "image/") lower = false ->
      extractTextFromFile ext p m st = textBranch ext p st)
  /\ extractTextFromFile ext p None st = textBranch ext p st.
Proof.
  cbn zeta. unfold extractTextFromFile. repeat split.
  - by intros ->.
  - by intros -> ->.
  - by intros -> ->.
Qed.

Lemma media_type_dispatch_witness :
  extractTextFromFile ocrEcho (lit "uploads/3f9a") (Some (lit "Application/X-PDF"))
    initialState
  = pdfBranch ocrEcho (lit "uploads/3f9a") initialState
  /\ extractTextFromFile ocrEcho (lit "uploads/3f9a") (Some (lit "IMAGE/png"))
       initialState
     = imageBranch ocrEcho (lit "uploads/3f9a") (lit "IMAGE/png") initialState
  /\ extractTextFromFile ocrEcho (lit "uploads/3f9a") (Some (lit "text/csv"))
       initialState
     = textBranch ocrEcho (lit "uploads/3f9a") initialState.
Proof.
  split; [|split].
  - apply (media_type_dispatch ocrEcho (lit "uploads/3f9a")
             (Some (lit "Application/X-PDF")) initialState).
    reflexivity.
  - apply (media_type_dispatch ocrEcho (lit "uploads/3f9a")
             (Some (lit "IMAGE/png")) initialState); reflexivity.
  - apply (media_type_dispatch ocrEcho (lit "uploads/3f9a")
             (Some (lit "text/csv")) initialState); reflexivity.
Defined.

(** C10 as stated fails: the declared type "image/pdf" passes the upload
    filter and starts with "image/", yet it contains "pdf" and takes the
    PDF branch: the vision model receives the PDF instruction, not the
    image one. *)
Lemma image_pdf_counterexample :
  fileFilter (UploadedFile (lit "uploads/3f9a") (lit "image/pdf")) = true
  /\ startsWith (lit "image/") (toLowerCase (lit "image/pdf")) = true
  /\ extractTextFromFile ocrEcho (lit "uploads/3f9a") (Some (lit "image/pdf"))
       initialState
     = pdfBranch ocrEcho (lit "uploads/3f9a") initialState
  /\ extractTextFromFile ocrEcho (lit "uploads/3f9a") (Some (lit "image/pdf"))
       initialState
     <> imageBranch ocrEcho (lit "uploads/3f9a") (lit "image/pdf") initialState.
Proof.
  split; [reflexivity|]. split; [reflexivity|]. split; [reflexivity|].
  intros H. apply (f_equal fst) in H. vm_compute in H. discriminate.
Qed.

Section HistoryWindow.

Lemma slice_lastTurns (h : list turn) : slice (-12) h = lastTurns 12 h.
Proof.
  unfold slice, lastTurns. cbn zeta.
  replace (-12 <? 0)%Z with true by reflexivity. f_equal. lia.
Qed.

Lemma lastTurns_length (n : nat) (h : list turn) :
  length (lastTurns n h) = Nat.min n (length h).
Proof. unfold lastTurns. rewrite length_drop. lia. Qed.

End HistoryWindow.

(** ** The Q&A prompt, character by character *)

Section PromptText.

Lemma ofNat_small (n : nat) : (n <= 12)%nat -> ofNat n = decimal n.
Proof.
  intros Hn. do 13 (destruct n as [|n]; [reflexivity|]). lia.
Qed.

Lemma turnBlock_text (t : turn) (i : nat) :
  (i < 12)%nat -> turnBlock t i = turnText (S i) t.
Proof.
  intros Hi. unfold turnBlock, turnText.
  replace (i + 1)%nat with (S i) by lia.
  rewrite ofNat_small by lia. rewrite !orElse_nil.
  change (lit ":
Q: ") with (lit ":" ++ [10] ++ lit "Q: ").
  change (lit "
A: ") with ([10] ++ lit "A: ").
  by rewrite <- !app_assoc.
Qed.

Lemma join_turns (w : list turn) (i : nat) :
  (i + length w <= 12)%nat ->
  join (lit "

") (mapIdx turnBlock i w) = turnsText (S i) w.
Proof.
  revert i. induction w as [|t w IH]; intros i Hlen; [done|].
  cbn [length] in Hlen. cbn [mapIdx].
  destruct w as [|t' w].
  - cbn [mapIdx join turnsText]. apply turnBlock_text. lia.
  - change (join (lit "

") (turnBlock t i :: mapIdx turnBlock (S i) (t' :: w)))
      with (turnBlock t i ++ lit "

" ++ join (lit "

") (mapIdx turnBlock (S i) (t' :: w))).
    rewrite IH by (cbn [length] in *; lia).
    rewrite turnBlock_text by lia. reflexivity.
Qed.

Lemma formatHistory_text (h : list turn) :
  formatHistoryForPrompt h = historyText h.
Proof.
  destruct h as [|t h]; [done|].
  unfold formatHistoryForPrompt, historyText.
  rewrite slice_lastTurns, join_turns.
  - change (lit "Previous Q&A (most recent last):
") with (lit "Previous Q&A (most recent last):" ++ [10]).
    by rewrite <- !app_assoc.
  - rewrite lastTurns_length. lia.
Qed.

Lemma answerPrompt_text (doc question : list N) (h : list turn) :
  answerPrompt doc question h = promptText doc question h.
Proof.
  unfold answerPrompt, promptText. rewrite formatHistory_text.
  change (lit "You are a helpful loan document assistant. Use the document and the prior Q&A context to answer.

Document:
") with (lit "You are a helpful loan document assistant. Use the document and the prior Q&A context to answer."
         ++ [10; 10] ++ lit "Document:" ++ [10]).
  change (lit "

") with [10; 10].
  change (lit "Question:
") with (lit "Question:" ++ [10]).
  by rewrite <- !app_assoc.
Qed.

Lemma turnsText_snoc (k : nat) (w : list turn) (t : turn) :
  turnsText k (w ++ [t])
  = match w with
    | [] => []
    | _ => turnsText k w ++ [10; 10]
    end ++ turnText (k + length w) t.
Proof.
  revert k. induction w as [|x w IH]; intros k.
  - cbn. by rewrite Nat.add_0_r.
  - destruct w as [|y w].
    + cbn. replace (k + 1)%nat with (S k) by lia. by rewrite <- !app_assoc.
    + change (turnsText k ((x :: y :: w) ++ [t]))
        with (turnText k x ++ [10; 10] ++ turnsText (S k) ((y :: w) ++ [t])).
      rewrite IH.
      change (turnsText k (x :: y :: w))
        with (turnText k x ++ [10; 10] ++ turnsText (S k) (y :: w)).
      cbn [length]. replace (S k + S (length w))%nat with (k + S (S (length w)))%nat by lia.
      by rewrite <- !app_assoc.
Qed.

Lemma turnsText_lookup (k i : nat) (w : list turn) (t : turn) :
  w !! i = Some t ->
  exists pre post, turnsText k w = pre ++ turnText (k + i) t ++ post.
Proof.
  revert k i. induction w as [|x w IH]; intros k i Hi; [done|].
  destruct i as [|i].
  - injection Hi as ->. rewrite Nat.add_0_r. destruct w as [|y w].
    + exists [], []. cbn. by rewrite app_nil_r.
    + exists [], ([10; 10] ++ turnsText (S k) (y :: w)). reflexivity.
  - cbn in Hi. destruct w as [|y w]; [done|].
    destruct (IH (S k) i Hi) as (pre & post & E).
    exists (turnText k x ++ [10; 10] ++ pre), post.
    change (turnsText k (x :: y :: w))
      with (turnText k x ++ [10; 10] ++ turnsText (S k) (y :: w)).
    rewrite E. replace (S k + i)%nat with (k + S i)%nat by lia.
    by rewrite <- !app_assoc.
Qed.

Lemma lastTurns_snoc (h : list turn) (t : turn) :
  lastTurns 12 (h ++ [t]) = lastTurns 11 h ++ [t].
Proof.
  unfold lastTurns. rewrite length_app. cbn [length].
  replace (length h + 1 - 12)%nat with (length h - 11)%nat by lia.
  apply drop_app_le. lia.
Qed.

(** The history block for a history that ends with [t]: the block of [t]
    comes last. *)
Lemma historyText_last_turn (h : list turn) (t : turn) :
  historyText (h ++ [t])
  = (lit "Previous Q&A (most recent last):" ++ [10]
     ++ match lastTurns 11 h with
        | [] => []
        | _ => turnsText 1 (lastTurns 11 h) ++ [10; 10]
        end)
    ++ turnText (Nat.min 12 (length h + 1)) t ++ [10; 10].
Proof.
  unfold historyText.
  destruct (h ++ [t]) as [|x r] eqn:E; [by destruct h|]. rewrite <- E.
  rewrite lastTurns_snoc, turnsText_snoc, lastTurns_length.
  replace (1 + Nat.min 11 (length h))%nat with (Nat.min 12 (length h + 1)) by lia.
  by rewrite <- !app_assoc.
Qed.

(** The prompt for a history that ends with [t]: the block of [t] comes
    last, right before the new question. *)
Lemma promptText_last_turn (doc question : list N) (h : list turn) (t : turn) :
  exists before,
    promptText doc question (h ++ [t])
    = before ++ turnText (Nat.min 12 (length h + 1)) t
      ++ [10; 10] ++ lit "Question:" ++ [10] ++ question.
Proof.
  unfold promptText. rewrite historyText_last_turn.
  exists (lit "You are a helpful loan document assistant. Use the document and the prior Q&A context to answer."
          ++ [10; 10] ++ lit "Document:" ++ [10] ++ doc ++ [10; 10]
          ++ lit "Previous Q&A (most recent last):" ++ [10]
          ++ match lastTurns 11 h with
             | [] => []
             | _ => turnsText 1 (lastTurns 11 h) ++ [10; 10]
             end).
  by rewrite <- !app_assoc.
Qed.

End PromptText.

(** C3: the history block of the Q&A prompt holds the last 12 turns of the
    history and no other, oldest first.  The window is the end of the
    history, at most 12 turns in their own order; the block that
    [formatHistoryForPrompt] builds, and the prompt that [answerQuestion]
    sends to the model, read character by character as [historyText] and
    [promptText] write them out for that window; with 20 turns the window
    is turns 9 to 20. *)
Theorem history_window (h : list turn) :
  slice (-12) h = lastTurns 12 h
  /\ length (lastTurns 12 h) = Nat.min 12 (length h)
  /\ h = take (length h - 12) h ++ lastTurns 12 h
  /\ (forall i, lastTurns 12 h !! i = h !! (length h - 12 + i)%nat)
  /\ formatHistoryForPrompt h = historyText h
  /\ (forall doc question,
        answerPrompt doc question h = promptText doc question h)
  /\ (forall ext doc question st,
        keySet ext = true ->
        log (snd (answerQuestion ext doc question h st))
        = log st ++ [EvChatInvoke (promptText doc question h)])
  /\ (length h = 20%nat -> lastTurns 12 h = drop 8 h).
Proof.
  repeat split.
  - apply slice_lastTurns.
  - apply lastTurns_length.
  - unfold lastTurns. by rewrite take_drop.
  - intros i. unfold lastTurns. by rewrite lookup_drop.
  - apply formatHistory_text.
  - intros doc question. apply answerPrompt_text.
  - intros ext doc question st Hkey.
    unfold answerQuestion, getModel, bind, call, ret. rewrite Hkey.
    rewrite <- answerPrompt_text.
    by destruct (chatInvoke ext (answerPrompt doc question h)).
  - intros Hlen. unfold lastTurns. by rewrite Hlen.
Qed.

Lemma history_window_witness :
  length sessionTurns = 20%nat
  /\ lastTurns 12 sessionTurns
     =
     [Turn (lit "Question 9?") (lit "Answer 9.") 9%Z;
      Turn (lit "Question 10?") (lit "Answer 10.") 10%Z;
      Turn (lit "Question 11?") (lit "Answer 11.") 11%Z;
      Turn (lit "Question 12?") (lit "Answer 12.") 12%Z;
      Turn (lit "Question 13?") (lit "Answer 13.") 13%Z;
      Turn (lit "Question 14?") (lit "Answer 14.") 14%Z;
      Turn (lit "Question 15?") (lit "Answer 15.") 15%Z;
      Turn (lit "Question 16?") (lit "Answer 16.") 16%Z;
      Turn (lit "Question 17?") (lit "Answer 17.") 17%Z;
      Turn (lit "Question 18?") (lit "Answer 18.") 18%Z;
      Turn (lit "Question 19?") (lit "Answer 19.") 19%Z;
      Turn (lit "Question 20?") (lit "Answer 20.") 20%Z]
  /\ formatHistoryForPrompt sessionTurns
     = lit "Previous Q&A (most recent last):
Turn 1:
Q: Question 9?
A: Answer 9.

Turn 2:
Q: Question 10?
A: Answer 10.

Turn 3:
Q: Question 11?
A: Answer 11.

Turn 4:
Q: Question 12?
A: Answer 12.

Turn 5:
Q: Question 13?
A: Answer 13.

Turn 6:
Q: Question 14?
A: Answer 14.

Turn 7:
Q: Question 15?
A: Answer 15.

Turn 8:
Q: Question 16?
A: Answer 16.

Turn 9:
Q: Question 17?
A: Answer 17.

Turn 10:
Q: Question 18?
A: Answer 18.

Turn 11:
Q: Question 19?
A: Answer 19.

Turn 12:
Q: Question 20?
A: Answer 20.

"
  /\ log (snd (answerQuestion (replyWith (lit "24 months"))
                 (lit "Loan of 5000 to Jane Doe.") (lit "What is the tenure?")
                 sessionTurns initialState))
     = [EvChatInvoke (lit "You are a helpful loan document assistant. Use the document and the prior Q&A context to answer.

Document:
Loan of 5000 to Jane Doe.

Previous Q&A (most recent last):
Turn 1:
Q: Question 9?
A: Answer 9.

Turn 2:
Q: Question 10?
A: Answer 10.

Turn 3:
Q: Question 11?
A: Answer 11.

Turn 4:
Q: Question 12?
A: Answer 12.

Turn 5:
Q: Question 13?
A: Answer 13.

Turn 6:
Q: Question 14?
A: Answer 14.

Turn 7:
Q: Question 15?
A: Answer 15.

Turn 8:
Q: Question 16?
A: Answer 16.

Turn 9:
Q: Question 17?
A: Answer 17.

Turn 10:
Q: Question 18?
A: Answer 18.

Turn 11:
Q: Question 19?
A: Answer 19.

Turn 12:
Q: Question 20?
A: Answer 20.

Question:
What is the tenure?")].
Proof.
  destruct (history_window sessionTurns)
    as (_ & _ & _ & _ & Hfmt & _ & Hlog & H20).
  split; [reflexivity|]. split; [rewrite H20; reflexivity|]. split.
  - rewrite Hfmt. vm_compute. reflexivity.
  - rewrite (Hlog (replyWith (lit "24 months"))) by reflexivity.
    vm_compute. reflexivity.
Defined.

(** Of twenty turns, the eighth is not in the prompt and the ninth is. *)
Example window_excludes_turn_8 :
  includes (lit "Question 8?")
    (answerPrompt (lit "Loan of 5000 to Jane Doe.") (lit "What is the tenure?")
       sessionTurns) = false
  /\ includes (lit "Question 9?")
       (answerPrompt (lit "Loan of 5000 to Jane Doe.") (lit "What is the tenure?")
          sessionTurns) = true.
Proof. vm_compute. split; reflexivity. Qed.

(** ** Scenarios of the specification, run on the embedding *)

(** Upload of a text file with a stubbed model that replies fenced JSON:
    the response holds the parsed object, which is also stored, and the
    history of the session is reset. *)
Example upload_scenario :
  let r := postUpload (stubbed (lit "Name: Jane Doe, Loan: 5000") fencedReply)
             textUpload earlierState in
  fst r = Normal (json (VObj [(lit "extracted", janeFields)]))
  /\ lastDocumentText (snd r) = lit "Name: Jane Doe, Loan: 5000"
  /\ lastExtracted (snd r) = Some janeFields
  /\ historyOf 7 (snd r) = [].
Proof. vm_compute. repeat split. Qed.

(** A blank text file is refused with 400 and nothing is written. *)
Example upload_blank_scenario :
  postUpload (stubbed [32; 10; 9] fencedReply) textUpload earlierState
  = (Normal (errorJson 400 (lit "Uploaded file is empty or unreadable")),
     withLog earlierState [EvReadFileUtf8 (lit "uploads/3f9a")]).
Proof. reflexivity. Qed.

(** A request without a file is refused with 400. *)
Example upload_no_file_scenario :
  postUpload (stubbed [] []) (UploadRequest None 7) earlierState
  = (Normal (errorJson 400 (lit "No file uploaded")), earlierState).
Proof. reflexivity. Qed.

(** A question after an upload: the answer is returned, trimmed, and the
    turn is appended to the history of the session. *)
Example ask_scenario :
  let r := postAsk (stubbed [] (lit " John Roe owes 900. "))
             (AskRequest (Some (VObj [(lit "question", VStr (lit "How much?"))])) 7)
             earlierState in
  fst r = Normal (json (VObj [(lit "answer", VStr (lit "John Roe owes 900."))]))
  /\ historyOf 7 (snd r)
     = [Turn (lit "Who?") (lit "John Roe") 1%Z;
        Turn (lit "How much?") (lit "John Roe owes 900.") 1700000000000%Z]
  /\ historyOf 8 (snd r) = [].
Proof. vm_compute. repeat split. Qed.

(** The filter of the upload middleware. *)
Example fileFilter_scenario :
  fileFilter (UploadedFile [] (lit "text/plain")) = true
  /\ fileFilter (UploadedFile [] (lit "application/pdf")) = true
  /\ fileFilter (UploadedFile [] (lit "image/png")) = true
  /\ fileFilter (UploadedFile [] (lit "application/zip")) = false.
Proof. vm_compute. repeat split. Qed.

(** * Further properties of the service and of the handlers *)

(** ** More on the fence expression: prose around the fence *)

Section FenceInProse.

Lemma trim_idempotent (s : list N) : trim (trim s) = trim s.
Proof.
  destruct (trim_split s) as (w1 & w2 & Hs & Hw1 & Hw2).
  rewrite Hs at 2. by rewrite trim_padding.
Qed.

Lemma closes_fence_rest (w rest : list N) :
  forallb isWhiteSpace w = true -> closes (w ++ lit "```" ++ rest) = true.
Proof.
  intros Hw. unfold closes. rewrite trimStart_ws by done.
  change (trimStart (lit "```" ++ rest)) with (lit "```" ++ rest).
  by apply startsWith_app.
Qed.

(** [run_body] with any text after the closing fence. *)
Lemma run_body_rest (w1 m w2 rest : list N) (c d : N) t cap :
  forallb isWhiteSpace w1 = true -> forallb isWhiteSpace w2 = true ->
  t = m ++ [d] -> (exists m', t = c :: m') ->
  isWhiteSpace c = false -> isWhiteSpace d = false -> d <> 96 ->
  includes (lit "```") t = false ->
  run bodyRe (w1 ++ t ++ w2 ++ lit "```" ++ rest) cap finish = Some (Some t).
Proof.
  intros Hw1 Hw2 Ht [m' Hc] Hwc Hwd Hd Hinc. unfold bodyRe. cbn [run].
  apply starGreedy_longest; [done | by rewrite Hc |].
  erewrite starLazy_ext; last first.
  { intros x. apply run_closing. }
  apply starLazy_first.
  - intros i Hi.
    replace (closes (drop i (t ++ w2 ++ lit "```" ++ rest))) with false; [done|].
    symmetry. rewrite drop_app_le by lia.
    assert (i <= length m)%nat as Hle.
    { rewrite Ht, length_app in Hi. cbn in Hi. lia. }
    rewrite Ht, drop_app_le by done.
    apply closes_inside; [done..|].
    rewrite Ht, <- (take_drop i m), <- app_assoc in Hinc.
    by apply includes_app_r in Hinc.
  - rewrite closes_fence_rest by done. do 2 f_equal.
    rewrite length_app.
    replace (length t + length (w2 ++ lit "```" ++ rest)
             - length (w2 ++ lit "```" ++ rest))%nat
      with (length t) by lia.
    by rewrite take_app_length.
Qed.

(** The expression cannot start on a code unit that is not a backtick. *)
Lemma exec_skip (before s : list N) :
  noBacktick before = true -> exec fenceRe (before ++ s) = exec fenceRe s.
Proof.
  intros H. induction before as [|c before IH]; [done|].
  cbn in H. apply andb_true_iff in H as [Hc H].
  rewrite <- app_comm_cons. cbn [exec].
  assert (matchHere fenceRe (c :: before ++ s) = None) as ->; [|by apply IH].
  change (run fenceRe (c :: before ++ s) None finish = None).
  change fenceRe
    with (RSeq (rlit (lit "```")) (RSeq (ROpt (rlit (lit "json"))) bodyRe)).
  cbn [run]. rewrite run_backticks.
  change (lit "```") with [96; 96; 96]. cbn [startsWith].
  apply negb_true_iff in Hc. rewrite N.eqb_sym in Hc. by rewrite Hc.
Qed.

(** The first fence of a text: the group captures its trimmed body. *)
Lemma exec_first_fence (before tag w1 body w2 after : list N) :
  noBacktick before = true ->
  isJsonTag tag = true
  \/ (tag = [] /\ forall c r, trim body = c :: r -> canon c <> 74) ->
  forallb isWhiteSpace w1 = true -> forallb isWhiteSpace w2 = true ->
  plainBody body ->
  exec fenceRe (fencedIn before tag w1 body w2 after) = Some (Some (trim body)).
Proof.
  intros Hbefore Htag Hw1 Hw2 (Hne & Hinc & Hlast).
  unfold fencedIn. rewrite exec_skip by done.
  destruct (trim_split body) as (u1 & u2 & Hb & Hu1 & Hu2).
  destruct (trim_ends body) as [E | (c & m & d & Hc & [m' Hd] & Hwc & Hwd)]; [done|].
  assert (d <> 96) as Hd96.
  { intros ->. apply Hlast. rewrite Hd. by rewrite last_snoc. }
  assert (includes (lit "```") (trim body) = false) as Hinc'.
  { rewrite Hb in Hinc. apply includes_app_r in Hinc.
    by apply includes_app_l in Hinc. }
  assert (forall cap, run bodyRe (w1 ++ body ++ w2 ++ lit "```" ++ after) cap finish
                      = Some (Some (trim body))) as Hbody.
  { intros cap.
    replace (w1 ++ body ++ w2 ++ lit "```" ++ after)
      with ((w1 ++ u1) ++ trim body ++ (u2 ++ w2) ++ lit "```" ++ after)
      by (rewrite <- !app_assoc; f_equal;
          rewrite (app_assoc (trim body)), (app_assoc u1); by rewrite <- Hb).
    apply (run_body_rest _ m' _ _ c d); try done.
    - by rewrite forallb_app, Hw1, Hu1.
    - by rewrite forallb_app, Hu2, Hw2.
    - by exists m. }
  assert (matchHere fenceRe (fenced tag w1 body w2 ++ after)
          = Some (Some (trim body))) as Hm.
  { change (run fenceRe (fenced tag w1 body w2 ++ after) None finish
            = Some (Some (trim body))).
    unfold fenced. rewrite <- !app_assoc.
    change fenceRe
      with (RSeq (rlit (lit "```")) (RSeq (ROpt (rlit (lit "json"))) bodyRe)).
    cbn [run]. rewrite run_backticks.
    change (lit "```" ++ tag ++ w1 ++ body ++ w2 ++ lit "```" ++ after)
      with (96 :: 96 :: 96 :: tag ++ w1 ++ body ++ w2 ++ lit "```" ++ after).
    change (startsWith (lit "```")
              (96 :: 96 :: 96 :: tag ++ w1 ++ body ++ w2 ++ lit "```" ++ after))
      with true.
    cbn [drop]. rewrite drop_0.
    destruct Htag as [Htag | [-> Hj]].
    - rewrite run_tag by done. by rewrite Hbody.
    - cbn [app].
      assert (run (rlit (lit "json")) (w1 ++ body ++ w2 ++ lit "```" ++ after) None
                (fun s1 cap1 => run bodyRe s1 cap1 finish) = None) as ->.
      { destruct w1 as [|x w1].
        - cbn [app]. rewrite Hb, Hc.
          destruct u1 as [|y u1]; cbn [app].
          + apply run_no_tag. by eapply Hj.
          + cbn in Hu1. apply andb_true_iff in Hu1 as [Hy _].
            by apply run_no_tag, blank_not_j.
        - cbn in Hw1. apply andb_true_iff in Hw1 as [Hx _].
          cbn [app]. by apply run_no_tag, blank_not_j. }
      apply Hbody. }
  destruct (fenced tag w1 body w2 ++ after); cbn [exec]; by rewrite Hm.
Qed.

End FenceInProse.

(** X1: a reply that is not JSON as a whole, with prose free of backticks
    before a fenced block and any text after it, gives the value of the
    block when its body is valid JSON without three backticks in a row. *)
Theorem fence_in_prose (before tag w1 j w2 after : list N) (v : value) (e : exn) :
  noBacktick before = true ->
  tag = [] \/ isJsonTag tag = true ->
  forallb isWhiteSpace w1 = true -> forallb isWhiteSpace w2 = true ->
  Json.parse j = Normal v ->
  includes (lit "```") j = false ->
  Json.parse (fencedIn before tag w1 j w2 after) = Throw e ->
  safeParseJson (fencedIn before tag w1 j w2 after) = Normal v.
Proof.
  intros Hbefore Htag Hw1 Hw2 Hv Hplain Hwhole.
  destruct (valid_body j v Hv Hplain)
    as (c & m & d & m' & u1 & u2 & Hj & Hc & Hd & Hu1 & Hu2 & Hwc & Hwd & Hbt & Hnj & Hinc).
  unfold safeParseJson. rewrite Hwhole. cbn [tryCatch].
  rewrite exec_first_fence; try done.
  - cbn [parseGroup]. by rewrite (parse_trim _ _ Hv).
  - destruct Htag as [-> | Htag]; [right | by left].
    split; [done|]. intros c' r Hc'. rewrite Hc in Hc'. by injection Hc' as <- _.
  - split; [by rewrite Hc|]. split; [done|].
    rewrite Hd, last_snoc. by intros [= ->].
Qed.

Lemma fence_in_prose_witness :
  safeParseJson
    (fencedIn (lit "Here are the fields: ") (lit "json") [10]
       (litq "{'Loan Amount':'5000'}") [10] (lit " Let me know if you need more."))
  = Normal (VObj [(lit "Loan Amount", VStr (lit "5000"))]).
Proof.
  apply (fence_in_prose _ _ _ _ _ _ _ SyntaxError).
  - reflexivity.
  - right. vm_compute. reflexivity.
  - reflexivity.
  - reflexivity.
  - vm_compute. reflexivity.
  - vm_compute. reflexivity.
  - vm_compute. reflexivity.
Defined.

(** X2: only the first fence of a reply is looked at: when its body is not
    JSON the result is the raw fallback, whatever follows the fence, be it
    a second fence with valid JSON. *)
Theorem first_fence_only (before tag w1 body w2 after : list N) (e e' : exn) :
  noBacktick before = true ->
  isJsonTag tag = true ->
  forallb isWhiteSpace w1 = true -> forallb isWhiteSpace w2 = true ->
  plainBody body ->
  Json.parse (fencedIn before tag w1 body w2 after) = Throw e ->
  Json.parse (trim body) = Throw e' ->
  safeParseJson (fencedIn before tag w1 body w2 after)
  = Normal (rawObject (fencedIn before tag w1 body w2 after)).
Proof.
  intros Hbefore Htag Hw1 Hw2 Hbody Hwhole Hjson.
  unfold safeParseJson. rewrite Hwhole. cbn [tryCatch].
  rewrite exec_first_fence by auto.
  cbn [parseGroup]. by rewrite Hjson.
Qed.

Lemma first_fence_only_witness :
  let reply :=
    fencedIn [] (lit "json") [10] (lit "Customer Name: Jane Doe") [10]
      ([10] ++ fenced (lit "json") [10] (litq "{'Customer Name':'Jane Doe'}") [10]) in
  safeParseJson reply = Normal (rawObject reply)
  /\ safeParseJson (fenced (lit "json") [10] (litq "{'Customer Name':'Jane Doe'}") [10])
     = Normal (VObj [(lit "Customer Name", VStr (lit "Jane Doe"))]).
Proof.
  split.
  - apply (first_fence_only _ _ _ _ _ _ SyntaxError SyntaxError).
    + reflexivity.
    + vm_compute. reflexivity.
    + reflexivity.
    + reflexivity.
    + split; [vm_compute; discriminate|].
      split; [vm_compute; reflexivity | vm_compute; discriminate].
    + vm_compute. reflexivity.
    + vm_compute. reflexivity.
  - vm_compute. reflexivity.
Defined.

(** ** The upload handler, case by case *)

Section UploadCases.


(** Text extraction adds events to the log, none of them a chat call. *)
Lemma extractText_log ext p m st :
  noChatCall st (snd (extractTextFromFile ext p m st)).
Proof.
  unfold noChatCall. munfold.
  repeat case_match; simplify_eq; cbn [snd log];
    rewrite <- ?app_assoc;
    first [ exists []; split; [by rewrite app_nil_r|]
          | eexists; split; [reflexivity|] ];
    intros pr Hin;
    repeat (apply elem_of_cons in Hin as [Hin|Hin]; [discriminate|]);
    try (by apply not_elem_of_nil in Hin).
Qed.

(** The upload handler once the text of the file is known and not blank. *)
Lemma postUpload_text ext req st f text st1 :
  file req = Some f ->
  extractTextFromFile ext (path f) (Some (mimetype f)) st = (Normal text, st1) ->
  trim text <> [] ->
  postUpload ext req st
  = match fst (extractFields ext text st1) with
    | Normal v =>
        (Normal (json (VObj [(lit "extracted", v)])),
         {| lastDocumentText := text;
            lastExtracted := Some v;
            sessions := <[uploadSession req := Session (Some [])]> (sessions st1);
            log := log (snd (extractFields ext text st1)) |})
    | Throw _ =>
        (Normal (errorJson 500 (lit "Failed to process upload")),
         {| lastDocumentText := text;
            lastExtracted := lastExtracted st1;
            sessions := sessions st1;
            log := log (snd (extractFields ext text st1))
                   ++ [EvConsoleError (lit "/api/upload error")] |})
    end.
Proof.
  intros Hf Ht Hne. unfold postUpload, try_, bind. rewrite Hf, Ht.
  assert (truthy text = true) as ->.
  { destruct text; [|done]. by destruct Hne. }
  assert (truthy (trim text) = true) as -> by (by destruct (trim text)).
  cbn [negb orb]. unfold setLastDocumentText at 1.
  rewrite !extractFields_run. destruct (keySet ext); cbn [fst snd]; [|done].
  destruct (chatInvoke ext (extractPrompt text)) as [ai|e]; [|done].
  by destruct (safeParseJson (pickTextFromAiMessage ai)).
Qed.

Lemma postUpload_blank ext req st f text st1 :
  file req = Some f ->
  extractTextFromFile ext (path f) (Some (mimetype f)) st = (Normal text, st1) ->
  trim text = [] ->
  postUpload ext req st
  = (Normal (errorJson 400 (lit "Uploaded file is empty or unreadable")), st1).
Proof.
  intros Hf Ht Hblank. unfold postUpload, try_, bind. rewrite Hf, Ht, Hblank.
  cbn [truthy negb]. by rewrite orb_true_r.
Qed.

End UploadCases.



(** A reply of the model that is a number which is zero as a double, such
    as [1e-400], is stored as the fields, and GET /api/extracted reports
    null. *)
Example upload_underflow_reply :
  let st := snd (postUpload (stubbed (lit "Name: Jane Doe, Loan: 5000") (lit "1e-400"))
                   textUpload initialState) in
  lastExtracted st = Some (VNum (lit "1e-400"))
  /\ fst (getExtracted st) = Normal None.
Proof.
  cbn zeta. split; vm_compute; reflexivity.
Qed.

(** X4: an upload whose extracted text is empty or blank is answered with
    400 before any call to the chat model; the document, the fields and the
    sessions are as before. *)
Theorem upload_blank_rejected ext req st f text :
  file req = Some f ->
  fst (extractTextFromFile ext (path f) (Some (mimetype f)) st) = Normal text ->
  trim text = [] ->
  exists st',
    postUpload ext req st
    = (Normal (errorJson 400 (lit "Uploaded file is empty or unreadable")), st')
    /\ sameData st st' /\ noChatCall st st'.
Proof.
  intros Hf Ht Hblank.
  pose proof (extractText_frame ext (path f) (Some (mimetype f)) st) as Hfr.
  pose proof (extractText_log ext (path f) (Some (mimetype f)) st) as Hlog.
  destruct (extractTextFromFile ext (path f) (Some (mimetype f)) st)
    as [r st1] eqn:E.
  cbn [fst snd] in *. subst r. exists st1.
  by rewrite (postUpload_blank _ _ _ _ _ _ Hf E Hblank).
Qed.

Lemma upload_blank_rejected_witness :
  exists st',
    postUpload (stubbed [32; 10; 9] fencedReply) textUpload earlierState
    = (Normal (errorJson 400 (lit "Uploaded file is empty or unreadable")), st')
    /\ sameData earlierState st' /\ noChatCall earlierState st'.
Proof.
  apply (upload_blank_rejected _ _ _
           (UploadedFile (lit "uploads/3f9a") (lit "text/plain")) [32; 10; 9]);
    reflexivity.
Defined.

(** X5: the upload handler never throws: it answers 200, 400 or 500.  On
    400 the document, the fields and the sessions are unchanged; on 500 the
    fields and the sessions are unchanged; the sessions other than the
    uploading one are unchanged in every case. *)
Theorem upload_frame ext req st :
  exists r st',
    postUpload ext req st = (Normal r, st')
    /\ knownStatus r
    /\ (status r = 400%nat -> sameData st st')
    /\ (status r = 500%nat ->
        lastExtracted st' = lastExtracted st /\ sessions st' = sessions st)
    /\ othersKept (uploadSession req) st st'.
Proof.
  destruct (file req) as [f|] eqn:Hf.
  - pose proof (extractText_frame ext (path f) (Some (mimetype f)) st) as Hfr.
    destruct (extractTextFromFile ext (path f) (Some (mimetype f)) st)
      as [[text|e] st1] eqn:Ht; cbn [snd] in Hfr.
    + destruct (trim text) as [|c t] eqn:Hb.
      * rewrite (postUpload_blank _ _ _ _ _ _ Hf Ht Hb).
        eexists _, _. split; [reflexivity|]. split; [right; by left|].
        split; [done|]. split; [done|].
        intros other _. by destruct Hfr as (_ & _ & ->).
      * rewrite (postUpload_text _ _ _ _ _ _ Hf Ht) by (by rewrite Hb).
        destruct Hfr as (H1 & H2 & H3).
        destruct (fst (extractFields ext text st1)) as [v|e].
        -- eexists _, _. split; [reflexivity|]. split; [by left|].
           split; [done|]. split; [done|].
           intros other Hother. cbn. rewrite lookup_insert_ne by done.
           by rewrite H3.
        -- eexists _, _. split; [reflexivity|]. split; [right; by right|].
           split; [done|]. split; [done|]. intros other _. cbn. by rewrite H3.
    + unfold postUpload, try_, bind, call, ret. rewrite Hf, Ht.
      destruct Hfr as (H1 & H2 & H3).
      eexists _, _. split; [reflexivity|]. split; [right; by right|].
      split; [done|]. split; [done|]. intros other _. cbn. by rewrite H3.
  - unfold postUpload, try_, ret. rewrite Hf.
    eexists _, _. split; [reflexivity|]. split; [right; by left|].
    repeat split.
Qed.

Lemma upload_frame_witness :
  exists r st',
    postUpload (chatFails (lit "Name: Jane Doe, Loan: 5000")) textUpload earlierState
    = (Normal r, st')
    /\ knownStatus r
    /\ (status r = 400%nat -> sameData earlierState st')
    /\ (status r = 500%nat ->
        lastExtracted st' = lastExtracted earlierState
        /\ sessions st' = sessions earlierState)
    /\ othersKept 7 earlierState st'.
Proof.
  apply (upload_frame (chatFails (lit "Name: Jane Doe, Loan: 5000")) textUpload
           earlierState).
Defined.

(** ** The ask handler, case by case *)

Section AskCases.

(** The ask handler for a question that is not blank, once a document is
    there. *)
Lemma postAsk_run ext req st question :
  questionOf (askBody req) = VStr question ->
  trim question <> [] ->
  lastDocumentText st <> [] ->
  postAsk ext req st
  = let prompt := answerPrompt (lastDocumentText st) question
                    (historyOf (askSession req) st) in
    if keySet ext then
      match chatInvoke ext prompt with
      | Normal ai =>
          (Normal (json (VObj [(lit "answer", VStr (trim (pickTextFromAiMessage ai)))])),
           {| lastDocumentText := lastDocumentText st;
              lastExtracted := lastExtracted st;
              sessions :=
                <[askSession req :=
                    Session (Some (historyOf (askSession req) st
                                   ++ [Turn question (trim (pickTextFromAiMessage ai))
                                         (dateNow ext)]))]> (sessions st);
              log := log st ++ [EvChatInvoke prompt; EvDateNow] |})
      | Throw _ =>
          (Normal (errorJson 500 (lit "Failed to answer question")),
           withLog st [EvChatInvoke prompt; EvConsoleError (lit "/api/ask error")])
      end
    else
      (Normal (errorJson 500 (lit "Failed to answer question")),
       withLog st [EvConsoleError (lit "/api/ask error")]).
Proof.
  intros Hq Hne Hdoc. unfold postAsk, try_. rewrite Hq.
  assert (truthy (trim question) = true) as -> by (by destruct (trim question)).
  cbn [negb]. unfold bind at 1. unfold getState at 1.
  assert (truthy (lastDocumentText st) = true) as ->
    by (by destruct (lastDocumentText st)).
  cbn [negb]. unfold bind at 1. rewrite answerQuestion_run. cbn zeta.
  destruct (keySet ext); [|reflexivity].
  destruct (chatInvoke ext _) as [ai|e]; [|unfold withLog; cbn; by rewrite <- app_assoc].
  unfold bind, call, getState, setHistory, ret, withLog, historyOf, sessionOf.
  cbn. by rewrite <- app_assoc.
Qed.

End AskCases.

(** X6: a successful question.  The answer is the trimmed reply of the
    model; the turn appended to the history of the session holds the
    question as sent (not trimmed), that answer and the time; the document,
    the fields and the other sessions are unchanged, and the model was
    called once, with the prompt built from the history before the turn. *)
Theorem ask_success ext req st question ai :
  questionOf (askBody req) = VStr question ->
  trim question <> [] ->
  lastDocumentText st <> [] ->
  keySet ext = true ->
  chatInvoke ext (answerPrompt (lastDocumentText st) question
                    (historyOf (askSession req) st)) = Normal ai ->
  exists st',
    postAsk ext req st
    = (Normal (json (VObj [(lit "answer", VStr (trim (pickTextFromAiMessage ai)))])), st')
    /\ historyOf (askSession req) st'
       = historyOf (askSession req) st
         ++ [Turn question (trim (pickTextFromAiMessage ai)) (dateNow ext)]
    /\ lastDocumentText st' = lastDocumentText st
    /\ lastExtracted st' = lastExtracted st
    /\ othersKept (askSession req) st st'
    /\ log st'
       = log st ++ [EvChatInvoke (answerPrompt (lastDocumentText st) question
                                    (historyOf (askSession req) st));
                    EvDateNow].
Proof.
  intros Hq Hne Hdoc Hkey Hchat.
  rewrite (postAsk_run _ _ _ _ Hq Hne Hdoc). cbn zeta. rewrite Hkey, Hchat.
  eexists. split; [reflexivity|]. cbn. repeat split.
  - unfold historyOf at 1, sessionOf. cbn. by rewrite lookup_insert_eq.
  - intros other Hother. cbn. by rewrite lookup_insert_ne.
Qed.

Lemma ask_success_witness :
  exists st',
    postAsk (stubbed [] (lit " John Roe owes 900. "))
      (AskRequest (Some (VObj [(lit "question", VStr (lit " How much? "))])) 7)
      earlierState
    = (Normal (json (VObj [(lit "answer", VStr (lit "John Roe owes 900."))])), st')
    /\ historyOf 7 st'
       = [Turn (lit "Who?") (lit "John Roe") 1%Z;
          Turn (lit " How much? ") (lit "John Roe owes 900.") 1700000000000%Z]
    /\ lastDocumentText st' = lastDocumentText earlierState
    /\ lastExtracted st' = lastExtracted earlierState
    /\ othersKept 7 earlierState st'
    /\ log st'
       = [EvChatInvoke (answerPrompt (lit "Name: John Roe, Loan: 900")
                          (lit " How much? ")
                          [Turn (lit "Who?") (lit "John Roe") 1%Z]);
          EvDateNow].
Proof.
  apply (ask_success (stubbed [] (lit " John Roe owes 900. "))
           (AskRequest (Some (VObj [(lit "question", VStr (lit " How much? "))])) 7)
           earlierState (lit " How much? ")
           (Some (AIMessage (Some (CString (lit " John Roe owes 900. "))) None))).
  - reflexivity.
  - vm_compute. discriminate.
  - vm_compute. discriminate.
  - reflexivity.
  - reflexivity.
Defined.

(** X7: a question whose model call fails, or that finds no key, is
    answered with 500 and writes nothing: the document, the fields and every
    history are as before; no partial turn is recorded. *)
Theorem ask_failure_atomic ext req st question :
  questionOf (askBody req) = VStr question ->
  trim question <> [] ->
  lastDocumentText st <> [] ->
  keySet ext = false
  \/ (exists e, chatInvoke ext (answerPrompt (lastDocumentText st) question
                                 (historyOf (askSession req) st)) = Throw e) ->
  exists st',
    postAsk ext req st
    = (Normal (errorJson 500 (lit "Failed to answer question")), st')
    /\ sameData st st'
    /\ (keySet ext = false -> noChatCall st st').
Proof.
  intros Hq Hne Hdoc Hfail.
  rewrite (postAsk_run _ _ _ _ Hq Hne Hdoc). cbn zeta.
  destruct (keySet ext) eqn:Hkey.
  - destruct Hfail as [|[e ->]]; [done|].
    eexists. split; [reflexivity|]. by split.
  - eexists. split; [reflexivity|]. split; [done|]. intros _.
    eexists. split; [reflexivity|].
    intros p [|Hin]%elem_of_cons; [discriminate|]. by apply not_elem_of_nil in Hin.
Qed.

Lemma ask_failure_atomic_witness :
  exists st',
    postAsk (chatFails [])
      (AskRequest (Some (VObj [(lit "question", VStr (lit "How much?"))])) 7)
      earlierState
    = (Normal (errorJson 500 (lit "Failed to answer question")), st')
    /\ sameData earlierState st'
    /\ (keySet (chatFails []) = false -> noChatCall earlierState st').
Proof.
  apply (ask_failure_atomic (chatFails []) _ _ (lit "How much?")).
  - reflexivity.
  - vm_compute. discriminate.
  - vm_compute. discriminate.
  - right. eexists. reflexivity.
Defined.

(** X8: the ask handler never throws: it answers 200, 400 or 500; it never
    changes the document or the fields, nor the sessions other than the
    asking one, and unless it answers 200 it changes no session at all. *)
Theorem ask_frame ext req st :
  exists r st',
    postAsk ext req st = (Normal r, st')
    /\ knownStatus r
    /\ lastDocumentText st' = lastDocumentText st
    /\ lastExtracted st' = lastExtracted st
    /\ othersKept (askSession req) st st'
    /\ (status r <> 200%nat -> sessions st' = sessions st).
Proof.
  destruct (questionOf (askBody req)) as [|b|n|question|items|ms] eqn:Hq;
    try (unfold postAsk, try_, throw, bind, call, ret; rewrite Hq;
         eexists _, _; split; [reflexivity|];
         split; [right; by right|]; by repeat split).
  destruct (trim question) as [|c t] eqn:Ht.
  { rewrite (postAsk_string _ _ _ _ Hq Ht).
    eexists _, _. split; [reflexivity|]. split; [right; by left|]. by repeat split. }
  destruct (lastDocumentText st) as [|d doc] eqn:Hd.
  { rewrite (postAsk_no_document _ _ _ question Hq) by (by rewrite ?Ht).
    eexists _, _. split; [reflexivity|]. split; [right; by left|]. by repeat split. }
  rewrite (postAsk_run _ _ _ question Hq) by (by rewrite ?Ht, ?Hd). cbn zeta.
  destruct (keySet ext).
  - destruct (chatInvoke ext _) as [ai|e].
    + eexists _, _. split; [reflexivity|]. split; [by left|].
      cbn. rewrite Hd. repeat split; [|done].
      intros other Hother. cbn. by rewrite lookup_insert_ne.
    + eexists _, _. split; [reflexivity|]. split; [right; by right|].
      cbn. rewrite Hd. by repeat split.
  - eexists _, _. split; [reflexivity|]. split; [right; by right|].
    cbn. rewrite Hd. by repeat split.
Qed.

Lemma ask_frame_witness :
  exists r st',
    postAsk (chatFails [])
      (AskRequest (Some (VObj [(lit "question", VNum (lit "5"))])) 7) earlierState
    = (Normal r, st')
    /\ knownStatus r
    /\ lastDocumentText st' = lastDocumentText earlierState
    /\ lastExtracted st' = lastExtracted earlierState
    /\ othersKept 7 earlierState st'
    /\ (status r <> 200%nat -> sessions st' = sessions earlierState).
Proof.
  apply (ask_frame (chatFails [])
           (AskRequest (Some (VObj [(lit "question", VNum (lit "5"))])) 7)
           earlierState).
Defined.

(** X9: two questions in a row in one session.  The prompt of the second
    call holds the first turn, question and answer, as its last block,
    right before the new question; the history afterwards is the earlier
    history followed by the two turns, in the order asked. *)
Theorem ask_twice ext1 ext2 sid body1 body2 st q1 q2 ai1 ai2 :
  questionOf body1 = VStr q1 -> trim q1 <> [] ->
  questionOf body2 = VStr q2 -> trim q2 <> [] ->
  lastDocumentText st <> [] ->
  keySet ext1 = true -> keySet ext2 = true ->
  let turn1 := Turn q1 (trim (pickTextFromAiMessage ai1)) (dateNow ext1) in
  let turn2 := Turn q2 (trim (pickTextFromAiMessage ai2)) (dateNow ext2) in
  chatInvoke ext1 (promptText (lastDocumentText st) q1 (historyOf sid st))
    = Normal ai1 ->
  chatInvoke ext2 (promptText (lastDocumentText st) q2 (historyOf sid st ++ [turn1]))
    = Normal ai2 ->
  let st1 := snd (postAsk ext1 (AskRequest body1 sid) st) in
  let st2 := snd (postAsk ext2 (AskRequest body2 sid) st1) in
  historyOf sid st2 = historyOf sid st ++ [turn1; turn2]
  /\ fst (postAsk ext2 (AskRequest body2 sid) st1)
     = Normal (json (VObj [(lit "answer", VStr (trim (pickTextFromAiMessage ai2)))]))
  /\ log st2
     = log st
       ++ [EvChatInvoke (promptText (lastDocumentText st) q1 (historyOf sid st));
           EvDateNow;
           EvChatInvoke (promptText (lastDocumentText st) q2
                           (historyOf sid st ++ [turn1]));
           EvDateNow]
  /\ exists before,
       promptText (lastDocumentText st) q2 (historyOf sid st ++ [turn1])
       = before
         ++ turnText (Nat.min 12 (length (historyOf sid st) + 1)) turn1
         ++ [10; 10] ++ lit "Question:" ++ [10] ++ q2.
Proof.
  intros Hq1 Hn1 Hq2 Hn2 Hdoc Hk1 Hk2 turn1 turn2 Hc1 Hc2 st1 st2.
  rewrite <- !answerPrompt_text in *.
  assert (st1 = {| lastDocumentText := lastDocumentText st;
                   lastExtracted := lastExtracted st;
                   sessions := <[sid := Session (Some (historyOf sid st ++ [turn1]))]>
                                 (sessions st);
                   log := log st ++ [EvChatInvoke
                                       (answerPrompt (lastDocumentText st) q1
                                          (historyOf sid st)); EvDateNow] |}) as E1.
  { unfold st1. rewrite (postAsk_run ext1 (AskRequest body1 sid) st q1) by done.
    cbn zeta. cbn [askSession]. by rewrite Hk1, Hc1. }
  assert (historyOf sid st1 = historyOf sid st ++ [turn1]) as Hh1.
  { rewrite E1. unfold historyOf at 1, sessionOf. cbn. by rewrite lookup_insert_eq. }
  assert (lastDocumentText st1 = lastDocumentText st) as Hd1 by (by rewrite E1).
  assert (postAsk ext2 (AskRequest body2 sid) st1
          = (Normal (json (VObj [(lit "answer", VStr (trim (pickTextFromAiMessage ai2)))])),
             {| lastDocumentText := lastDocumentText st1;
                lastExtracted := lastExtracted st1;
                sessions := <[sid := Session (Some (historyOf sid st1 ++ [turn2]))]>
                              (sessions st1);
                log := log st1 ++ [EvChatInvoke
                                     (answerPrompt (lastDocumentText st1) q2
                                        (historyOf sid st1)); EvDateNow] |})) as E2.
  { rewrite (postAsk_run ext2 (AskRequest body2 sid) st1 q2); try done.
    - cbn zeta. cbn [askSession]. rewrite Hk2, Hd1, Hh1, Hc2. reflexivity.
    - by rewrite Hd1. }
  unfold st2. rewrite E2. cbn [fst snd]. split; [|split; [done|split]].
  - unfold historyOf at 1, sessionOf. cbn. rewrite lookup_insert_eq. cbn.
    rewrite Hh1. by rewrite <- app_assoc.
  - cbn. rewrite Hd1, Hh1, E1. cbn. by rewrite <- app_assoc.
  - rewrite answerPrompt_text. apply promptText_last_turn.
Qed.

Lemma ask_twice_witness :
  let ext1 := stubbed [] (lit "John Roe") in
  let ext2 := stubbed [] (lit " 900 ") in
  let body1 := Some (VObj [(lit "question", VStr (lit "Who borrows?"))]) in
  let body2 := Some (VObj [(lit "question", VStr (lit "How much?"))]) in
  let st0 := snd (postUpload (stubbed (lit "Name: John Roe, Loan: 900") (lit "{}"))
                    textUpload initialState) in
  let st1 := snd (postAsk ext1 (AskRequest body1 7) st0) in
  let st2 := snd (postAsk ext2 (AskRequest body2 7) st1) in
  List.map q (historyOf 7 st2) = [lit "Who borrows?"; lit "How much?"]
  /\ List.map a (historyOf 7 st2) = [lit "John Roe"; lit "900"]
  /\ log st2
     = log st0
       ++ [EvChatInvoke (lit "You are a helpful loan document assistant. Use the document and the prior Q&A context to answer.

Document:
Name: John Roe, Loan: 900

Question:
Who borrows?");
           EvDateNow;
           EvChatInvoke (lit "You are a helpful loan document assistant. Use the document and the prior Q&A context to answer.

Document:
Name: John Roe, Loan: 900

Previous Q&A (most recent last):
Turn 1:
Q: Who borrows?
A: John Roe

Question:
How much?");
           EvDateNow].
Proof.
  cbn zeta.
  destruct (ask_twice (stubbed [] (lit "John Roe")) (stubbed [] (lit " 900 ")) 7
              (Some (VObj [(lit "question", VStr (lit "Who borrows?"))]))
              (Some (VObj [(lit "question", VStr (lit "How much?"))]))
              (snd (postUpload (stubbed (lit "Name: John Roe, Loan: 900") (lit "{}"))
                      textUpload initialState))
              (lit "Who borrows?") (lit "How much?")
              (Some (AIMessage (Some (CString (lit "John Roe"))) None))
              (Some (AIMessage (Some (CString (lit " 900 "))) None)))
    as (Hh & _ & Hlog & _);
    [reflexivity | vm_compute; discriminate | reflexivity | vm_compute; discriminate
    | vm_compute; discriminate | reflexivity | reflexivity | reflexivity | reflexivity |].
  rewrite Hh, Hlog. split; [reflexivity|]. split; [reflexivity|].
  vm_compute. reflexivity.
Defined.

(** ** Text extraction and the API key *)

(** X10: without the API key, [extractFields] and [answerQuestion] throw
    the configuration error before any call to the chat model, and the image
    branch throws it before the file is read; nothing is logged or written. *)
Theorem missing_key_fails_fast ext :
  keySet ext = false ->
  (forall doc st, extractFields ext doc st = (Throw missingKey, st))
  /\ (forall doc question hist st,
        answerQuestion ext doc question hist st = (Throw missingKey, st))
  /\ (forall p m st,
        includes (lit "pdf") (toLowerCase (default [] m)) = false ->
        startsWith (lit "image/") (toLowerCase (default [] m)) = true ->
        extractTextFromFile ext p m st = (Throw missingKey, st)).
Proof.
  intros Hkey. repeat split.
  - intros doc st. by rewrite extractFields_run, Hkey.
  - intros doc question hist st. by rewrite answerQuestion_run, Hkey.
  - intros p m st Hpdf Himg. unfold extractTextFromFile. rewrite Hpdf, Himg.
    unfold imageBranch, getGenAi, bind, throw. by rewrite Hkey.
Qed.

Lemma missing_key_fails_fast_witness :
  extractFields noKey (lit "doc") initialState = (Throw missingKey, initialState)
  /\ answerQuestion noKey (lit "doc") (lit "Who?") [] initialState
     = (Throw missingKey, initialState)
  /\ extractTextFromFile noKey (lit "uploads/3f9a") (Some (lit "image/png"))
       initialState
     = (Throw missingKey, initialState).
Proof.
  destruct (missing_key_fails_fast noKey eq_refl) as (H1 & H2 & H3).
  split; [apply H1|]. split; [apply H2|]. apply H3; reflexivity.
Defined.

(** X11: a scanned PDF without the API key.  The native parse is tried
    first; when it is not accepted and the key is missing, the configuration
    error is thrown and the vision model is not called. *)
Theorem scanned_pdf_missing_key ext p m st buffer :
  includes (lit "pdf") (toLowerCase (default [] m)) = true ->
  readFile ext p = Normal buffer ->
  nativeParsed ext buffer = None
  \/ (exists t, nativeParsed ext buffer = Some t /\ (length t <= 50)%nat) ->
  keySet ext = false ->
  exists st',
    extractTextFromFile ext p m st = (Throw missingKey, st')
    /\ noVisionCall st st' /\ sameData st st'.
Proof.
  intros Hpdf Hread Hnot Hkey. unfold extractTextFromFile. rewrite Hpdf.
  destruct (pdfBranch_run ext p st buffer Hread) as (evs & Hevs & ->).
  assert ((run! getGenAi ext in
           visionText ext pdfInstruction (lit "application/pdf") buffer)
            (withLog st (EvReadFile p :: evs))
          = (Throw missingKey, withLog st (EvReadFile p :: evs))) as Hgen.
  { unfold getGenAi, bind, throw. by rewrite Hkey. }
  exists (withLog st (EvReadFile p :: evs)). split; [|split; [|done]].
  - destruct Hnot as [-> | (t & -> & Hlen)]; [done|].
    apply Nat.ltb_ge in Hlen. by rewrite Hlen, andb_false_r.
  - exists (EvReadFile p :: evs). split; [done|].
    intros i m0 b [|Hin]%elem_of_cons; [discriminate|]. by eapply Hevs.
Qed.

Lemma scanned_pdf_missing_key_witness :
  exists st',
    extractTextFromFile noKey (lit "uploads/3f9a") (Some (lit "application/pdf"))
      initialState = (Throw missingKey, st')
    /\ noVisionCall initialState st' /\ sameData initialState st'.
Proof.
  apply (scanned_pdf_missing_key noKey _ _ _ (lit "%PDF-1.4")).
  - vm_compute. reflexivity.
  - reflexivity.
  - right. exists []. split; [reflexivity | cbn; lia].
  - reflexivity.
Defined.

(** X12: the image branch.  For a declared image type, with the key set
    and a readable file, the vision model is called once with the image
    instruction, the media type as declared (its case kept) and the bytes of
    the file; the native PDF parser is not used; the reply is returned as in
    the PDF fallback. *)
Theorem image_branch_run ext p m st bytes :
  includes (lit "pdf") (toLowerCase m) = false ->
  startsWith (lit "image/") (toLowerCase m) = true ->
  keySet ext = true ->
  readFile ext p = Normal bytes ->
  extractTextFromFile ext p (Some m) st
  = (match generateContent ext imageInstruction m bytes with
     | Normal r => resultText r
     | Throw e => Throw e
     end,
     withLog st [EvReadFile p; EvGenerateContent imageInstruction m bytes]).
Proof.
  intros Hpdf Himg Hkey Hread. unfold extractTextFromFile.
  change (default [] (Some m)) with m. rewrite Hpdf, Himg.
  unfold imageBranch, getGenAi, visionText, bind, call, ret, lift, withLog.
  rewrite Hkey, Hread.
  destruct (generateContent ext imageInstruction m bytes);
    cbn [log lastDocumentText lastExtracted sessions]; by rewrite <- app_assoc.
Qed.

Lemma image_branch_run_witness :
  extractTextFromFile ocrEcho (lit "uploads/3f9a") (Some (lit "Image/PNG")) initialState
  = (Normal imageInstruction,
     withLog initialState
       [EvReadFile (lit "uploads/3f9a");
        EvGenerateContent imageInstruction (lit "Image/PNG") (lit "%PDF-1.4")]).
Proof.
  rewrite (image_branch_run ocrEcho _ _ _ (lit "%PDF-1.4")); reflexivity.
Defined.

(** X13: a text file that cannot be read.  The text branch turns the
    failure into the empty string, so the upload is answered with 400 "empty
    or unreadable", the chat model is not called and nothing is written. *)
Theorem upload_unreadable_text ext req st f e :
  file req = Some f ->
  includes (lit "pdf") (toLowerCase (mimetype f)) = false ->
  startsWith (lit "image/") (toLowerCase (mimetype f)) = false ->
  readFileUtf8 ext (path f) = Throw e ->
  postUpload ext req st
  = (Normal (errorJson 400 (lit "Uploaded file is empty or unreadable")),
     withLog st [EvReadFileUtf8 (path f)]).
Proof.
  intros Hf Hpdf Himg Hread.
  apply (postUpload_blank _ _ _ f []); [done | | done].
  unfold extractTextFromFile.
  change (default [] (Some (mimetype f))) with (mimetype f). rewrite Hpdf, Himg.
  unfold textBranch, try_, call, ret. by rewrite Hread.
Qed.

Lemma upload_unreadable_text_witness :
  postUpload (replyWith (lit "{}")) textUpload earlierState
  = (Normal (errorJson 400 (lit "Uploaded file is empty or unreadable")),
     withLog earlierState [EvReadFileUtf8 (lit "uploads/3f9a")]).
Proof.
  apply (upload_unreadable_text (replyWith (lit "{}")) textUpload earlierState
           (UploadedFile (lit "uploads/3f9a") (lit "text/plain"))
           (Error (lit "ENOENT"))); reflexivity.
Defined.

(** X14: a PDF or an image that cannot be read.  The read is outside every
    try block of [extractTextFromFile]: the error is thrown on, no parser or
    model is called, and the upload is answered with 500, nothing written. *)
Theorem upload_unreadable_pdf_or_image ext req st f e :
  file req = Some f ->
  includes (lit "pdf") (toLowerCase (mimetype f)) = true
  \/ (startsWith (lit "image/") (toLowerCase (mimetype f)) = true
      /\ keySet ext = true) ->
  readFile ext (path f) = Throw e ->
  extractTextFromFile ext (path f) (Some (mimetype f)) st
    = (Throw e, withLog st [EvReadFile (path f)])
  /\ postUpload ext req st
     = (Normal (errorJson 500 (lit "Failed to process upload")),
        withLog st [EvReadFile (path f); EvConsoleError (lit "/api/upload error")]).
Proof.
  intros Hf Hroute Hread.
  assert (extractTextFromFile ext (path f) (Some (mimetype f)) st
          = (Throw e, withLog st [EvReadFile (path f)])) as E.
  { unfold extractTextFromFile.
    change (default [] (Some (mimetype f))) with (mimetype f).
    destruct Hroute as [-> | [Himg Hkey]].
    - unfold pdfBranch, bind, call. by rewrite Hread.
    - destruct (includes (lit "pdf") (toLowerCase (mimetype f))).
      + unfold pdfBranch, bind, call. by rewrite Hread.
      + rewrite Himg. unfold imageBranch, getGenAi, bind, call, ret.
        by rewrite Hkey, Hread. }
  split; [exact E|].
  unfold postUpload, try_, bind. rewrite Hf, E.
  unfold call, ret, withLog. cbn. by rewrite <- app_assoc.
Qed.

Lemma upload_unreadable_pdf_or_image_witness :
  postUpload (replyWith (lit "{}"))
    (UploadRequest (Some (UploadedFile (lit "uploads/77c1") (lit "application/pdf"))) 7)
    earlierState
  = (Normal (errorJson 500 (lit "Failed to process upload")),
     withLog earlierState
       [EvReadFile (lit "uploads/77c1"); EvConsoleError (lit "/api/upload error")]).
Proof.
  apply (upload_unreadable_pdf_or_image (replyWith (lit "{}")) _ earlierState
           (UploadedFile (lit "uploads/77c1") (lit "application/pdf"))
           (Error (lit "ENOENT"))).
  - reflexivity.
  - left. vm_compute. reflexivity.
  - reflexivity.
Defined.

(** ** The upload filter and the dispatch *)

Section FilterDispatch.

Lemma lowerChar_lower (c : N) :
  (97 <=? c) && (c <=? 122) || (c =? 47) = true -> lowerChar c = c.
Proof.
  intros H. unfold lowerChar.
  destruct ((65 <=? c) && (c <=? 90)) eqn:E1; [b2p; lia|].
  destruct ((192 <=? c) && (c <=? 222) && negb (c =? 215)) eqn:E2; [b2p; lia|].
  done.
Qed.

Lemma startsWith_image_lower (m : list N) :
  startsWith (lit "image/") m = true ->
  startsWith (lit "image/") (toLowerCase m) = true.
Proof.
  change (lit "image/") with [105; 109; 97; 103; 101; 47].
  destruct m as [|c1 [|c2 [|c3 [|c4 [|c5 [|c6 m]]]]]]; cbn [startsWith];
    rewrite ?andb_false_r; try done.
  intros H. b2p. destruct H as (<- & <- & <- & <- & <- & <- & _). reflexivity.
Qed.

End FilterDispatch.

(** X15: the upload filter and the dispatch together.  Among the files the
    filter accepts, only [text/plain] is read as UTF-8 text, and
    [application/pdf] always takes the PDF branch; an accepted image type
    takes the image branch unless it contains "pdf". *)
Theorem filter_then_dispatch (f : uploadedFile) :
  fileFilter f = true ->
  let lower := toLowerCase (mimetype f) in
  (includes (lit "pdf") lower = false ->
   startsWith (lit "image/") lower = false ->
   mimetype f = lit "text/plain")
  /\ (mimetype f = lit "application/pdf" -> includes (lit "pdf") lower = true)
  /\ (startsWith (lit "image/") (mimetype f) = true ->
      startsWith (lit "image/") lower = true).
Proof.
  intros Hfilter lower. unfold fileFilter in Hfilter.
  split; [|split].
  - intros Hpdf Himg.
    apply orb_true_iff in Hfilter as [Hfilter|Hfilter].
    + apply orb_true_iff in Hfilter as [Hfilter|Hfilter].
      * by apply bool_decide_eq_true in Hfilter.
      * apply bool_decide_eq_true in Hfilter. unfold lower in Hpdf.
        rewrite Hfilter in Hpdf. vm_compute in Hpdf. discriminate.
    + apply startsWith_image_lower in Hfilter. unfold lower in Himg. congruence.
  - intros E. unfold lower. rewrite E. vm_compute. reflexivity.
  - apply startsWith_image_lower.
Qed.

Lemma filter_then_dispatch_witness :
  (includes (lit "pdf") (toLowerCase (lit "text/plain")) = false ->
   startsWith (lit "image/") (toLowerCase (lit "text/plain")) = false ->
   lit "text/plain" = lit "text/plain")
  /\ (lit "text/plain" = lit "application/pdf" ->
      includes (lit "pdf") (toLowerCase (lit "text/plain")) = true)
  /\ (startsWith (lit "image/") (lit "text/plain") = true ->
      startsWith (lit "image/") (toLowerCase (lit "text/plain")) = true).
Proof.
  apply (filter_then_dispatch (UploadedFile (lit "uploads/3f9a") (lit "text/plain"))).
  reflexivity.
Defined.

(** X16: text extraction, whatever the branch and the outcome, never calls
    the chat model and never changes the document, the fields or the
    sessions: it only adds to the log of calls. *)
Theorem extract_text_frame ext p m st :
  sameData st (snd (extractTextFromFile ext p m st))
  /\ noChatCall st (snd (extractTextFromFile ext p m st)).
Proof.
  split; [apply extractText_frame | apply extractText_log].
Qed.

(** ** An invariant of the reachable states *)

Section Invariant.

Lemma historyOf_insert (sid sid' : N) (h : list turn) d x ss l :
  historyOf sid' {| lastDocumentText := d; lastExtracted := x;
                    sessions := <[sid := Session (Some h)]> ss; log := l |}
  = if decide (sid = sid') then h
    else historyOf sid' {| lastDocumentText := d; lastExtracted := x;
                           sessions := ss; log := l |}.
Proof.
  unfold historyOf, sessionOf. cbn. destruct (decide (sid = sid')) as [->|Hne].
  - by rewrite lookup_insert_eq.
  - by rewrite lookup_insert_ne.
Qed.

Lemma historyOf_sessions (sid : N) (st st' : state) :
  sessions st' = sessions st -> historyOf sid st' = historyOf sid st.
Proof. unfold historyOf, sessionOf. by intros ->. Qed.

Lemma invariant_sameData (st st' : state) :
  sameData st st' -> stateInvariant st -> stateInvariant st'.
Proof.
  intros (Hd & He & Hs) (I1 & I2 & I3 & I4). unfold stateInvariant.
  rewrite Hd, He. repeat split; try done.
  - intros sid. rewrite (historyOf_sessions sid _ _ Hs). apply I3.
  - rewrite (historyOf_sessions sid _ _ Hs) in H. by apply (I4 sid).
  - rewrite (historyOf_sessions sid _ _ Hs) in H. by apply (I4 sid).
Qed.

Lemma invariant_upload ext req st :
  stateInvariant st -> stateInvariant (snd (postUpload ext req st)).
Proof.
  intros Hinv. destruct (file req) as [f|] eqn:Hf.
  - pose proof (extractText_frame ext (path f) (Some (mimetype f)) st) as Hfr.
    destruct (extractTextFromFile ext (path f) (Some (mimetype f)) st)
      as [[text|e] st1] eqn:Ht; cbn [snd] in Hfr.
    + pose proof (invariant_sameData _ _ Hfr Hinv) as (I1 & I2 & I3 & I4).
      destruct (trim text) as [|c t] eqn:Hb.
      * rewrite (postUpload_blank _ _ _ _ _ _ Hf Ht Hb). by apply (invariant_sameData st).
      * assert (text <> []) as Hne by (intros ->; done).
        rewrite (postUpload_text _ _ _ _ _ _ Hf Ht) by (by rewrite Hb).
        destruct (fst (extractFields ext text st1)) as [v|e]; cbn [snd].
        -- unfold stateInvariant. cbn [lastDocumentText lastExtracted].
           split; [right; by rewrite Hb|]. split; [done|]. split; [done|].
           intros sid t0. rewrite historyOf_insert.
           destruct (decide (uploadSession req = sid)).
           ++ by intros ?%not_elem_of_nil.
           ++ intros Hin. apply (I4 sid). unfold historyOf, sessionOf in *. exact Hin.
        -- unfold stateInvariant. cbn [lastDocumentText lastExtracted].
           split; [right; by rewrite Hb|]. split; [done|]. split; [done|].
           intros sid t0 Hin. apply (I4 sid). exact Hin.
    + unfold postUpload, try_, bind, call, ret. rewrite Hf, Ht. cbn [snd].
      apply (invariant_sameData st); [|done].
      destruct Hfr as (H1 & H2 & H3). by repeat split.
  - unfold postUpload, try_, ret. by rewrite Hf.
Qed.

Lemma invariant_ask ext req st :
  stateInvariant st -> stateInvariant (snd (postAsk ext req st)).
Proof.
  intros Hinv.
  destruct (questionOf (askBody req)) as [|b|n|question|items|ms] eqn:Hq;
    try (unfold postAsk, try_, throw, bind, call, ret; rewrite Hq; cbn [snd];
         apply (invariant_sameData st); [by repeat split | done]).
  destruct (trim question) as [|c t] eqn:Ht.
  { by rewrite (postAsk_string _ _ _ _ Hq Ht). }
  destruct (lastDocumentText st) as [|d doc] eqn:Hd.
  { by rewrite (postAsk_no_document _ _ _ question Hq) by (by rewrite ?Ht). }
  rewrite (postAsk_run _ _ _ question Hq) by (by rewrite ?Ht, ?Hd). cbn zeta.
  destruct (keySet ext).
  - destruct (chatInvoke ext _) as [ai|e]; cbn [snd].
    + destruct Hinv as (I1 & I2 & I3 & I4). unfold stateInvariant.
      cbn [lastDocumentText lastExtracted]. rewrite Hd in *.
      split; [done|]. split; [done|]. split; [done|].
      intros sid t0. rewrite historyOf_insert.
      destruct (decide (askSession req = sid)) as [<-|Hne].
      * intros [Hin | ->%list_elem_of_singleton]%elem_of_app.
        -- by apply (I4 (askSession req)).
        -- split; cbn [q a]; [by rewrite Ht | apply trim_idempotent].
      * intros Hin. apply (I4 sid). exact Hin.
    + apply (invariant_sameData st); [by repeat split | done].
  - cbn [snd]. apply (invariant_sameData st); [by repeat split | done].
Qed.

Lemma invariant_clear sid st :
  stateInvariant st -> stateInvariant (snd (postHistoryClear sid st)).
Proof.
  intros (I1 & I2 & I3 & I4). unfold postHistoryClear, bind, setHistory, ret.
  cbn [snd]. unfold stateInvariant. cbn [lastDocumentText lastExtracted].
  split; [done|]. split; [done|]. split.
  - intros sid'. rewrite historyOf_insert.
    destruct (decide (sid = sid')); [done|]. apply (I3 sid').
  - intros sid' t0. rewrite historyOf_insert.
    destruct (decide (sid = sid')); [by intros ?%not_elem_of_nil|]. apply (I4 sid').
Qed.

End Invariant.

(** X17: in every state the server can reach, the stored document text is
    empty (nothing uploaded yet) or not blank; extracted fields and turns
    exist only when a document is stored; and every recorded turn has a
    question that is not blank and an answer that is trimmed. *)
Theorem reachable_invariant (st : state) :
  reachable st -> stateInvariant st.
Proof.
  induction 1 as [|st r Hreach IH].
  - unfold stateInvariant. cbn. split; [by left|]. split; [done|].
    split; [done|]. intros sid t. unfold historyOf, sessionOf. cbn.
    rewrite lookup_empty. by intros ?%not_elem_of_nil.
  - destruct r as [ext req | ext req | sid]; cbn [handle].
    + by apply invariant_upload.
    + by apply invariant_ask.
    + by apply invariant_clear.
Qed.

Lemma reachable_invariant_witness :
  stateInvariant
    (snd (handle (Ask (stubbed [] (lit " 900 "))
                    (AskRequest (Some (VObj [(lit "question", VStr (lit "How much?"))])) 7))
            (snd (handle (Upload (stubbed (lit "Name: John Roe, Loan: 900") (lit "{}"))
                            textUpload)
                    initialState)))).
Proof.
  apply reachable_invariant. do 2 apply reachable_step. apply reachable_init.
Defined.

(** ** The numbering of the turns in the prompt *)

(** X18: the turns of the prompt are numbered by their place in the
    window, from 1 to at most 12, not by their place in the session: the
    history block that [formatHistoryForPrompt] builds holds, for the turn
    at place [i] of the window (from 0), the block "Turn", the numeral of
    [i + 1], a colon, and the question and answer of that turn, which is
    the one at place [length h - length window + i] of the history. *)
Theorem window_labels (h : list turn) (i : nat) (t : turn) :
  lastTurns 12 h !! i = Some t ->
  (exists pre post,
     formatHistoryForPrompt h = pre ++ turnText (i + 1) t ++ post)
  /\ (forall doc question, exists pre post,
        answerPrompt doc question h = pre ++ turnText (i + 1) t ++ post)
  /\ (i + 1 <= 12)%nat
  /\ h !! (length h - length (lastTurns 12 h) + i)%nat = Some t.
Proof.
  intros Hi.
  assert (exists pre post,
            formatHistoryForPrompt h = pre ++ turnText (i + 1) t ++ post) as Hblock.
  { rewrite formatHistory_text. unfold historyText.
    destruct h as [|x h]; [done|].
    destruct (turnsText_lookup 1 i _ t Hi) as (pre & post & E).
    exists (lit "Previous Q&A (most recent last):" ++ [10] ++ pre), (post ++ [10; 10]).
    rewrite E. replace (1 + i)%nat with (i + 1)%nat by lia.
    by rewrite <- !app_assoc. }
  split; [exact Hblock|]. split; [|split].
  - intros doc question. destruct Hblock as (pre & post & E).
    unfold answerPrompt. rewrite E.
    match goal with
    | |- exists _ _, ?x ++ ?d ++ ?y ++ (_ ++ _ ++ _) ++ ?z = _ =>
        exists (x ++ d ++ y ++ pre), (post ++ z)
    end.
    by rewrite <- !app_assoc.
  - apply lookup_lt_Some in Hi. rewrite lastTurns_length in Hi. lia.
  - rewrite lastTurns_length. unfold lastTurns in Hi. rewrite lookup_drop in Hi.
    replace (length h - Nat.min 12 (length h) + i)%nat
      with (length h - 12 + i)%nat by lia.
    exact Hi.
Qed.

Lemma window_labels_witness :
  (exists pre post,
     formatHistoryForPrompt sessionTurns
     = pre ++ lit "Turn 1:
Q: Question 9?
A: Answer 9." ++ post)
  /\ (forall doc question, exists pre post,
        answerPrompt doc question sessionTurns
        = pre ++ lit "Turn 1:
Q: Question 9?
A: Answer 9." ++ post)
  /\ (0 + 1 <= 12)%nat
  /\ sessionTurns !! 8%nat = Some (Turn (lit "Question 9?") (lit "Answer 9.") 9%Z).
Proof.
  apply (window_labels sessionTurns 0 (Turn (lit "Question 9?") (lit "Answer 9.") 9%Z)).
  reflexivity.
Defined.
